(** * Infinite reference-many field: cursor paging, record promotion and
      list controller

    A shallow embedding of [useInfiniteGetMany] and
    [useInfiniteReferenceManyFieldController].  JavaScript objects used as
    dictionaries are finite maps, arrays are lists, [undefined] and [null]
    results are [option]s, and every React state cell is a field of one
    controller state record that the setters update.

    Numbers are JavaScript integers in the safe range, where the quotient of
    two integers rounds up to the mathematical ceiling; the three special
    results a division by zero can produce are kept as values of their own. *)

From stdpp Require Import gmap strings list fin_maps pretty.
From Stdlib Require Import ZArith Lia Ascii.

Set Warnings "-register-all".
Local Open Scope Z_scope.

(** ** JavaScript values *)

(** Filter values, record fields and request metadata are typed [any] in the
    source.  Objects are represented by their contents, so equality of two
    values is equality of structure, never of reference. *)
Inductive jsval :=
  | JUndef
  | JNull
  | JBool (b : bool)
  | JNum (z : Z)
  | JStr (s : string)
  | JArr (l : list jsval)
  | JObj (m : gmap string jsval).

(** [v == null]: the value is [null] or [undefined]. *)
Definition nullish (v : jsval) : bool :=
  match v with
  | JUndef | JNull => true
  | _ => false
  end.

(** Truthiness, as tested by [if (v)], [v || w] and [v ? a : b]. *)
Definition truthy (v : jsval) : bool :=
  match v with
  | JUndef | JNull => false
  | JBool b => b
  | JNum z => negb (z =? 0)
  | JStr s => negb (String.eqb s "")
  | JArr _ | JObj _ => true
  end.

Definition both_eq {A B} (f : A → B → bool)
    (o1 : option A) (o2 : option B) : option bool :=
  match o1, o2 with
  | Some x, Some y => Some (f x y)
  | None, None => None
  | _, _ => Some false
  end.

(** [isEqual] of lodash on these values: a deep comparison, arrays position
    by position, objects key by key whatever the order the keys were
    written in. *)
Fixpoint isEqual (a b : jsval) : bool :=
  match a, b with
  | JUndef, JUndef | JNull, JNull => true
  | JBool x, JBool y => bool_decide (x = y)
  | JNum x, JNum y => bool_decide (x = y)
  | JStr x, JStr y => bool_decide (x = y)
  | JArr l1, JArr l2 =>
      (fix go (l1 l2 : list jsval) : bool :=
         match l1, l2 with
         | [], [] => true
         | x :: l1, y :: l2 => isEqual x y && go l1 l2
         | _, _ => false
         end) l1 l2
  | JObj m1, JObj m2 =>
      map_fold (λ _ (x : bool) acc, x && acc) true
        (merge (both_eq isEqual) m1 m2)
  | _, _ => false
  end.

(** A size measure, used only to reason about nested values. *)
Fixpoint jsize (v : jsval) : nat :=
  match v with
  | JArr l => S (foldr (λ x n, (jsize x + n)%nat) 0%nat l)
  | JObj m => S (map_fold (λ _ x n, (jsize x + n)%nat) 0%nat m)
  | _ => 1%nat
  end.

(** ** Numbers produced by a division *)

Inductive jsnumber :=
  | Finite (z : Z)
  | PosInfinity
  | NegInfinity
  | NaN.

(** [Math.ceil(a / b)] on integer operands. *)
Definition math_ceil_div (a b : Z) : jsnumber :=
  if b =? 0 then
    if 0 <? a then PosInfinity
    else if a <? 0 then NegInfinity
    else NaN
  else Finite (- ((- a) / b)).

(** [c < n] for an integer [c]; every comparison with [NaN] is false. *)
Definition js_lt (c : Z) (n : jsnumber) : bool :=
  match n with
  | Finite z => c <? z
  | PosInfinity => true
  | NegInfinity | NaN => false
  end.

(** ** Records, pages and errors *)

(** [Identifier = string | number]. *)
Inductive Identifier :=
  | IdStr (s : string)
  | IdNum (n : Z).

(** [String(id)]. *)
Definition String_of_Identifier (i : Identifier) : string :=
  match i with
  | IdStr s => s
  | IdNum n => pretty n
  end.

Definition Identifier_value (i : Identifier) : jsval :=
  match i with
  | IdStr s => JStr s
  | IdNum n => JNum n
  end.

(** [RaRecord]: an [id] and any other fields. *)
Record RaRecord := mkRecord {
  rec_id : Identifier;
  rec_fields : gmap string jsval;
}.

Record PageInfo := mkPageInfo {
  pi_hasNextPage : option bool;
  pi_hasPreviousPage : option bool;
}.

(** What the data provider's [getManyReference] resolves to. *)
Record PageResult := mkPageResult {
  pr_data : list RaRecord;
  pr_total : option Z;
  pr_pageInfo : option PageInfo;
  pr_meta : jsval;
}.

(** What [queryFn] resolves to: the page result with its cursor. *)
Record LoadedPage := mkLoadedPage {
  data : list RaRecord;
  total : option Z;
  pageParam : Z;
  pageInfo : option PageInfo;
  meta : jsval;
}.

(** The [.then] of [queryFn]. *)
Definition queryFn_result (pageParam : Z) (r : PageResult) : LoadedPage :=
  {| data := pr_data r;
     total := pr_total r;
     pageParam := pageParam;
     pageInfo := pr_pageInfo r;
     meta := pr_meta r |}.

(** A flag that may be missing is falsy. *)
Definition flag (o : option bool) : bool := default false o.

(** [lastLoadedPage.total || 0]. *)
Definition total_or_zero (t : option Z) : Z :=
  match t with
  | Some t => if t =? 0 then 0 else t
  | None => 0
  end.

(** ** Cursor advancement *)

Definition getNextPageParam (perPage : Z) (lastLoadedPage : LoadedPage)
    : option Z :=
  match pageInfo lastLoadedPage with
  | Some info =>
      if flag (pi_hasNextPage info)
      then Some (pageParam lastLoadedPage + 1)
      else None
  | None =>
      let totalPages :=
        math_ceil_div (total_or_zero (total lastLoadedPage)) perPage in
      if js_lt (pageParam lastLoadedPage) totalPages
      then Some (pageParam lastLoadedPage + 1)
      else None
  end.

Definition getPreviousPageParam (lastLoadedPage : LoadedPage) : option Z :=
  match pageInfo lastLoadedPage with
  | Some info =>
      if flag (pi_hasPreviousPage info)
      then Some (pageParam lastLoadedPage - 1)
      else None
  | None =>
      if pageParam lastLoadedPage =? 1
      then None
      else Some (pageParam lastLoadedPage - 1)
  end.

(** ** The state of an infinite query *)

Inductive QueryStatus :=
  | StatusPending
  | StatusError
  | StatusSuccess.

(** What a fetch can reject with: a plain string, or an object (identified by
    its reference) that may carry a [message]. *)
Inductive JsError :=
  | ErrString (s : string)
  | ErrObject (ref : nat) (message : option string).

(** The fields of the query library's result that the two hooks read. *)
Record QueryResult := mkQueryResult {
  res_data : option (list LoadedPage);
  res_error : option JsError;
  res_status : QueryStatus;
  res_isFetching : bool;
  res_hasNextPage : bool;
  res_hasPreviousPage : bool;
  res_isFetchingNextPage : bool;
  res_isFetchingPreviousPage : bool;
}.

Definition res_isPending (result : QueryResult) : bool :=
  match res_status result with
  | StatusPending => true
  | _ => false
  end.

(** The caller's callbacks, recorded as the calls made to them. *)
Inductive Callback :=
  | OnSuccess (pages : list LoadedPage)
  | OnError (error : JsError)
  | OnSettled (pages : option (list LoadedPage)) (error : option JsError).

Definition MAX_DATA_LENGTH_TO_CACHE : Z := 100.

(** ** Record promotion into the [getOne] cache *)

Section Promotion.
(** Request metadata is part of the cache key; any type that can be a key
    will do. *)
Context {Meta : Type} `{Countable Meta}.

(** Key [[resource, 'getOne', { id: String(record.id), meta }]]. *)
Definition getOneKey (resource : string) (record : RaRecord) (meta : Meta)
    : string * string * Meta :=
  (resource, String_of_Identifier (rec_id record), meta).

(** [queryClient.setQueryData(key, updater)]: the updater sees the cached
    value, if any; an [undefined] result leaves the cache alone. *)
Definition setQueryData (key : string * string * Meta)
    (updater : option RaRecord → option RaRecord)
    (cache : gmap (string * string * Meta) RaRecord)
    : gmap (string * string * Meta) RaRecord :=
  match updater (cache !! key) with
  | Some d => <[key := d]> cache
  | None => cache
  end.

(** [oldRecord => oldRecord ?? record]. *)
Definition keepOld (record : RaRecord) (oldRecord : option RaRecord)
    : option RaRecord :=
  Some (default record oldRecord).

Definition allPagesDataLength (pages : list LoadedPage) : Z :=
  foldl (λ acc page, acc + Z.of_nat (length (data page))) 0 pages.

(** The two nested [forEach] loops. *)
Definition populateGetOneCache (resource : string) (meta : Meta)
    (pages : list LoadedPage)
    (cache : gmap (string * string * Meta) RaRecord)
    : gmap (string * string * Meta) RaRecord :=
  foldl (λ cache page,
           foldl (λ cache record,
                    setQueryData (getOneKey resource record meta)
                      (keepOld record) cache)
                 cache (data page))
        cache pages.

(** The body of the first effect: the cache after it, and the callbacks it
    made. *)
Definition promotionEffect (resource : string) (meta : Meta)
    (result : QueryResult)
    (cache : gmap (string * string * Meta) RaRecord)
    : gmap (string * string * Meta) RaRecord * list Callback :=
  match res_data result with
  | None => (cache, [])
  | Some pages =>
      if bool_decide (is_Some (res_error result)) || res_isFetching result
      then (cache, [])
      else
        (if allPagesDataLength pages <=? MAX_DATA_LENGTH_TO_CACHE
         then populateGetOneCache resource meta pages cache
         else cache,
         [OnSuccess pages])
  end.
End Promotion.

(** The first record, in page order then record order, whose key is [key]. *)
Definition firstWriter `{Countable Meta} (resource : string) (meta : Meta)
    (pages : list LoadedPage) (key : string * string * Meta)
    : option RaRecord :=
  head (base.filter (λ record, getOneKey resource record meta = key)
          (concat (map data pages))).

(** ** Error and settled effects *)

Definition onErrorEffect (result : QueryResult) : list Callback :=
  match res_error result with
  | None => []
  | Some error => if res_isFetching result then [] else [OnError error]
  end.

Definition onSettledEffect (result : QueryResult) : list Callback :=
  if res_isPending result || res_isFetching result then []
  else [OnSettled (res_data result) (res_error result)].

(** [Object.is] on the [error] dependency: strings by value, objects by
    reference. *)
Definition Object_is_error (a b : option JsError) : bool :=
  match a, b with
  | None, None => true
  | Some (ErrString s), Some (ErrString s') => bool_decide (s = s')
  | Some (ErrObject r _), Some (ErrObject r' _) => bool_decide (r = r')
  | _, _ => false
  end.

(** The dependencies [[onErrorEvent, result.error, result.isFetching]]; the
    event handler keeps one identity for the life of the component. *)
Definition errorDeps (result : QueryResult) : option JsError * bool :=
  (res_error result, res_isFetching result).

Definition sameErrorDeps (a b : option JsError * bool) : bool :=
  Object_is_error a.1 b.1 && bool_decide (a.2 = b.2).

(** An effect with dependencies runs after the first render, and after a
    later one when a dependency differs from the render before. *)
Definition useEffect {D A} (same : D → D → bool)
    (previous : option D) (current : D) (body : list A) : list A :=
  match previous with
  | None => body
  | Some p => if same p current then [] else body
  end.

(** Calls to [onError] over a sequence of renders. *)
Fixpoint onErrorCalls (previous : option (option JsError * bool))
    (renders : list QueryResult) : list Callback :=
  match renders with
  | [] => []
  | result :: renders =>
      useEffect sameErrorDeps previous (errorDeps result)
        (onErrorEffect result)
      ++ onErrorCalls (Some (errorDeps result)) renders
  end.

(** ** What [useInfiniteGetMany] returns *)

Record HookValue := mkHookValue {
  hv_result : QueryResult;
  hv_total : option Z;
  hv_meta : jsval;
}.

Definition useInfiniteGetMany_return (result : QueryResult) : HookValue :=
  match res_data result with
  | Some pages =>
      {| hv_result := result;
         hv_total := head pages ≫= total;
         hv_meta := default JUndef (meta <$> head pages) |}
  | None =>
      {| hv_result := result; hv_total := None; hv_meta := JUndef |}
  end.

(** ** The list controller: state *)

Record SortPayload := mkSort {
  field : string;
  order : string;
}.

(** Every call of a state setter, in the order the calls were made. *)
Inductive Action :=
  | SortStateSet (sort : SortPayload)
  | PageSet (page : Z)
  | PerPageSet (perPage : Z)
  | DisplayedFiltersSet (displayedFilters : gmap string bool)
  | FilterValuesSet (filterValues : gmap string jsval).

(** The state cells of one mounted controller.  [pendingFilters] is the
    timer of the debounced function: the time of its last call and the
    arguments of that call.  [log] is the history of setter calls. *)
Record Controller := mkController {
  page : Z;
  perPage : Z;
  sort : SortPayload;
  displayedFilters : gmap string bool;
  filterValues : gmap string jsval;
  filterRef : gmap string jsval;
  pendingFilters : option (Z * gmap string jsval * gmap string bool);
  log : list Action;
}.

(** State after the first render: [filterRef] and [filterValues] start from
    the [filter] prop, no filter is displayed. *)
Definition initialController (filter : gmap string jsval)
    (initialPage initialPerPage : Z) (initialSort : SortPayload)
    : Controller :=
  {| page := initialPage;
     perPage := initialPerPage;
     sort := initialSort;
     displayedFilters := ∅;
     filterValues := filter;
     filterRef := filter;
     pendingFilters := None;
     log := [] |}.

Definition setPage (p : Z) (st : Controller) : Controller :=
  {| page := p;
     perPage := perPage st;
     sort := sort st;
     displayedFilters := displayedFilters st;
     filterValues := filterValues st;
     filterRef := filterRef st;
     pendingFilters := pendingFilters st;
     log := log st ++ [PageSet p] |}.

(** [setPerPage] of the pagination state also goes back to the first
    page. *)
Definition setPerPage (p : Z) (st : Controller) : Controller :=
  {| page := 1;
     perPage := p;
     sort := sort st;
     displayedFilters := displayedFilters st;
     filterValues := filterValues st;
     filterRef := filterRef st;
     pendingFilters := pendingFilters st;
     log := log st ++ [PerPageSet p] |}.

Definition setSortState (s : SortPayload) (st : Controller) : Controller :=
  {| page := page st;
     perPage := perPage st;
     sort := s;
     displayedFilters := displayedFilters st;
     filterValues := filterValues st;
     filterRef := filterRef st;
     pendingFilters := pendingFilters st;
     log := log st ++ [SortStateSet s] |}.

Definition setDisplayedFilters (d : gmap string bool) (st : Controller)
    : Controller :=
  {| page := page st;
     perPage := perPage st;
     sort := sort st;
     displayedFilters := d;
     filterValues := filterValues st;
     filterRef := filterRef st;
     pendingFilters := pendingFilters st;
     log := log st ++ [DisplayedFiltersSet d] |}.

Definition setFilterValues (v : gmap string jsval) (st : Controller)
    : Controller :=
  {| page := page st;
     perPage := perPage st;
     sort := sort st;
     displayedFilters := displayedFilters st;
     filterValues := v;
     filterRef := filterRef st;
     pendingFilters := pendingFilters st;
     log := log st ++ [FilterValuesSet v] |}.

(** [filterRef.current = filter]. *)
Definition setFilterRef (v : gmap string jsval) (st : Controller)
    : Controller :=
  {| page := page st;
     perPage := perPage st;
     sort := sort st;
     displayedFilters := displayedFilters st;
     filterValues := filterValues st;
     filterRef := v;
     pendingFilters := pendingFilters st;
     log := log st |}.

Definition setPendingFilters
    (p : option (Z * gmap string jsval * gmap string bool))
    (st : Controller) : Controller :=
  {| page := page st;
     perPage := perPage st;
     sort := sort st;
     displayedFilters := displayedFilters st;
     filterValues := filterValues st;
     filterRef := filterRef st;
     pendingFilters := p;
     log := log st |}.

(** Statements in sequence. *)
Notation "f >>> g" := (λ st : Controller, g (f st))
  (at level 61, left associativity, only parsing).

(** ** The list controller: operations *)

Definition setSort (s : SortPayload) : Controller → Controller :=
  setSortState s >>>
  setPage 1.

Definition hideFilter (filterName : string) : Controller → Controller :=
  (λ st, setDisplayedFilters (delete filterName (displayedFilters st)) st) >>>
  (λ st, setFilterValues (delete filterName (filterValues st)) st).

Definition showFilter (filterName : string) (defaultValue : jsval)
    : Controller → Controller :=
  (λ st, setDisplayedFilters (<[filterName := true]> (displayedFilters st)) st) >>>
  (λ st, setFilterValues (<[filterName := defaultValue]> (filterValues st)) st).

(** Modelled from the spec: [removeEmpty], imported from the host framework,
    is missing.  The spec's value sanitation strips the entries whose value
    is an empty string, an empty container, [null] or [undefined]; the
    entries that stay keep their values. *)
Definition isEmpty (v : jsval) : bool :=
  match v with
  | JUndef | JNull => true
  | JStr s => String.eqb s ""
  | JArr l => bool_decide (length l = 0%nat)
  | JObj m => bool_decide (size m = 0%nat)
  | JBool _ | JNum _ => false
  end.

(** Modelled from the spec: [removeEmpty] itself, which keeps the entries
    whose value is not empty. *)
Definition removeEmpty (filters : gmap string jsval) : gmap string jsval :=
  base.filter (λ kv, isEmpty kv.2 = false) filters.

(** The function handed to the debouncer. *)
Definition debouncedBody (filters : gmap string jsval)
    (displayedFilters : gmap string bool) : Controller → Controller :=
  setFilterValues (removeEmpty filters) >>>
  setDisplayedFilters displayedFilters >>>
  setPage 1.

Section Debounce.
(** The [debounce] prop, in the time unit of the clock. *)
Variable debounce : Z.

(** Modelled from the spec: the debouncer, imported from a utility library,
    is missing.  The spec's trailing-edge debounce is a timer-based
    coalescer: each call cancels the pending timer and schedules a new one
    with the latest arguments; the timer fires once when the window elapses
    with no call in between. *)
Definition debouncedSetFilters (now : Z) (filters : gmap string jsval)
    (displayedFilters : gmap string bool) : Controller → Controller :=
  setPendingFilters (Some (now, filters, displayedFilters)).

(** Modelled from the spec: the timer of the debouncer, looked at when the
    clock shows [now].  It fires on the trailing edge, once [debounce] has
    passed since the last call, and runs the body with the arguments of that
    call. *)
Definition fireTimer (now : Z) (st : Controller) : Controller :=
  match pendingFilters st with
  | Some (lastCallTime, filters, displayedFilters) =>
      if lastCallTime + debounce <=? now
      then debouncedBody filters displayedFilters (setPendingFilters None st)
      else st
  | None => st
  end.

Definition setFilters (now : Z) (filters : gmap string jsval)
    (displayedFilters : gmap string bool) (debounce : bool)
    : Controller → Controller :=
  if debounce then
    debouncedSetFilters now filters displayedFilters
  else
    setFilterValues (removeEmpty filters) >>>
    setDisplayedFilters displayedFilters >>>
    setPage 1.

(** The effect without dependencies, run after every render with the
    [filter] prop of that render. *)
Definition filterEffect (filter : gmap string jsval) (st : Controller)
    : Controller :=
  if negb (isEqual (JObj filter) (JObj (filterRef st)))
  then setFilterValues filter (setFilterRef filter st)
  else st.

(** What can happen to a mounted controller. *)
Inductive Call :=
  | CallSetFilters (filters : gmap string jsval)
      (displayedFilters : gmap string bool) (debounce : bool)
  | CallSetSort (sort : SortPayload)
  | CallSetPage (page : Z)
  | CallSetPerPage (perPage : Z)
  | CallShowFilter (filterName : string) (defaultValue : jsval)
  | CallHideFilter (filterName : string)
  | Render (filter : gmap string jsval).

Definition handle (now : Z) (c : Call) : Controller → Controller :=
  match c with
  | CallSetFilters filters displayedFilters debounce =>
      setFilters now filters displayedFilters debounce
  | CallSetSort s => setSort s
  | CallSetPage p => setPage p
  | CallSetPerPage p => setPerPage p
  | CallShowFilter filterName defaultValue => showFilter filterName defaultValue
  | CallHideFilter filterName => hideFilter filterName
  | Render filter => filterEffect filter
  end.

(** One event of the loop: a timer that is due runs first. *)
Definition step (st : Controller) (event : Z * Call) : Controller :=
  handle event.1 event.2 (fireTimer event.1 st).

(** A history of events, each with the time it happens at. *)
Definition run (events : list (Z * Call)) (st : Controller) : Controller :=
  foldl step st events.
End Debounce.

(** The setter calls made since [st0]. *)
Definition actionsSince (st0 st : Controller) : list Action :=
  drop (length (log st0)) (log st).

(** ** The list controller: the query it asks for *)

(** [get(record, source)] for a [source] that names one property; the owner
    record may not be loaded yet. *)
Definition get (record : option (gmap string jsval)) (source : string)
    : jsval :=
  default JUndef (record ≫= (λ r, r !! source)).

Fixpoint hasChar (c : Ascii.ascii) (s : string) : bool :=
  match s with
  | EmptyString => false
  | String c' s => bool_decide (c' = c) || hasChar c s
  end.

(** The names every object inherits: reading them gives a function or the
    prototype, also on a record that holds no such field. *)
Definition inheritedNames : list string :=
  [ "constructor"; "hasOwnProperty"; "isPrototypeOf"; "propertyIsEnumerable";
    "toLocaleString"; "toString"; "valueOf"; "__proto__";
    "__defineGetter__"; "__defineSetter__"; "__lookupGetter__";
    "__lookupSetter__" ].

(** The sources for which [get] above is the whole of [get(record, source)]:
    the source has no path syntax, neither a dot nor a bracket, so that one
    property is read, and it is not an inherited name, so that a record
    without the field gives [undefined]. *)
Definition namesOwnField (source : string) : bool :=
  negb (hasChar "."%char source) && negb (hasChar "["%char source)
  && negb (bool_decide (source ∈ inheritedNames)).

(** The [enabled] entry of query options: any value, [undefined] included,
    or a predicate, given by what it returns for the query. *)
Inductive EnabledOption :=
  | EnabledValue (v : jsval)
  | EnabledPredicate (returns : jsval).

(** The caller's [queryOptions], as far as they are modelled: [meta], and
    the [enabled] entry when the object has one.  Options that give the
    query data of its own (initial or placeholder data) or another key or
    function are not modelled. *)
Record QueryOptions := mkQueryOptions {
  qo_meta : jsval;
  qo_enabled : option EnabledOption;
}.

(** [{ enabled: get(record, source) != null, ...queryOptions }]: an
    [enabled] entry of the query options, whatever its value, replaces the
    controller's own. *)
Definition enabledOption (record : option (gmap string jsval))
    (source : string) (queryOptions : QueryOptions) : EnabledOption :=
  default (EnabledValue (JBool (negb (nullish (get record source)))))
    (qo_enabled queryOptions).

(** Modelled from the spec: how the query cache engine, an imported
    library, reads the entry.  A predicate is asked for its answer, and the
    query is disabled only by [false]: every other value, [undefined]
    included, leaves it enabled. *)
Definition resolveEnabled (entry : EnabledOption) : jsval :=
  match entry with
  | EnabledValue v => v
  | EnabledPredicate returns => returns
  end.

Definition queryIsEnabled (entry : EnabledOption) : bool :=
  match resolveEnabled entry with
  | JBool false => false
  | _ => true
  end.

(** The arguments of [useInfiniteGetMany] and the options that reach the
    query library; [ha_enabled] tells whether the [enabled] entry that
    reaches the library enables the query. *)
Record HookArgs := mkHookArgs {
  ha_resource : string;
  ha_target : string;
  ha_id : jsval;
  ha_page : Z;
  ha_perPage : Z;
  ha_sort : SortPayload;
  ha_filter : gmap string jsval;
  ha_meta : jsval;
  ha_enabled : bool;
}.

(** The call of [useInfiniteGetMany] in the controller.  In the options
    object [enabled] comes first and [queryOptions] is spread after it. *)
Definition useInfiniteGetMany_args (reference target : string)
    (record : option (gmap string jsval)) (source : string)
    (queryOptions : QueryOptions) (st : Controller) : HookArgs :=
  let recordId := get record source in
  {| ha_resource := reference;
     ha_target := target;
     ha_id := if nullish recordId then JStr "" else recordId;
     ha_page := page st;
     ha_perPage := perPage st;
     ha_sort := sort st;
     ha_filter := <[target := get record source]> (filterValues st);
     ha_meta := qo_meta queryOptions;
     ha_enabled := queryIsEnabled (enabledOption record source queryOptions)
  |}.

(** What [queryFn] passes to [dataProvider.getManyReference]. *)
Record FetchRequest := mkFetchRequest {
  fr_resource : string;
  fr_target : string;
  fr_id : jsval;
  fr_page : Z;
  fr_perPage : Z;
  fr_sort : SortPayload;
  fr_filter : gmap string jsval;
  fr_meta : jsval;
}.

Definition queryFn_request (args : HookArgs) (pageParam : Z) : FetchRequest :=
  {| fr_resource := ha_resource args;
     fr_target := ha_target args;
     fr_id := ha_id args;
     fr_page := pageParam;
     fr_perPage := ha_perPage args;
     fr_sort := ha_sort args;
     fr_filter := ha_filter args;
     fr_meta := ha_meta args |}.

(** Modelled from the spec: the query cache engine, an imported library, is
    missing.  A query seen for the first time has no data and is pending;
    when enabled the page at the initial cursor is fetched, when disabled no
    fetch is issued. *)
Definition useInfiniteQuery_first (args : HookArgs)
    : QueryResult * list FetchRequest :=
  ({| res_data := None;
      res_error := None;
      res_status := StatusPending;
      res_isFetching := ha_enabled args;
      res_hasNextPage := false;
      res_hasPreviousPage := false;
      res_isFetchingNextPage := false;
      res_isFetchingPreviousPage := false |},
   if ha_enabled args then [queryFn_request args (ha_page args)] else []).

(** ** The list controller: the result it exposes *)

Record ListControllerResult := mkResult {
  r_sort : SortPayload;
  r_displayedFilters : gmap string bool;
  r_filterValues : gmap string jsval;
  r_isFetching : bool;
  r_page : Z;
  r_perPage : Z;
  r_resource : string;
  r_hasNextPage : bool;
  r_hasPreviousPage : bool;
  r_isFetchingNextPage : bool;
  r_isFetchingPreviousPage : bool;
  r_data : option (list RaRecord);
  r_error : option JsError;
  r_isLoading : bool;
  r_isPending : bool;
  r_total : option Z;
}.

(** [if (error)]: [null] and the empty string are falsy. *)
Definition error_truthy (error : option JsError) : bool :=
  match error with
  | None => false
  | Some (ErrString s) => negb (String.eqb s "")
  | Some (ErrObject _ _) => true
  end.

(** [data?.pages?.reduce((acc, page) => [...acc, ...page.data], [])]. *)
Definition unwrappedData (hv : HookValue) : option (list RaRecord) :=
  (λ pages, foldl (λ acc page, acc ++ data page) [] pages)
    <$> res_data (hv_result hv).

Definition controllerResult (reference : string) (st : Controller)
    (hv : HookValue) : ListControllerResult :=
  let result := hv_result hv in
  let baseProps d e l p t :=
    {| r_sort := sort st;
       r_displayedFilters := displayedFilters st;
       r_filterValues := filterValues st;
       r_isFetching := res_isFetching result;
       r_page := page st;
       r_perPage := perPage st;
       r_resource := reference;
       r_hasNextPage := res_hasNextPage result;
       r_hasPreviousPage := res_hasPreviousPage result;
       r_isFetchingNextPage := res_isFetchingNextPage result;
       r_isFetchingPreviousPage := res_isFetchingPreviousPage result;
       r_data := d;
       r_error := e;
       r_isLoading := l;
       r_isPending := p;
       r_total := t |} in
  if error_truthy (res_error result) then
    baseProps None (res_error result) false false None
  else if res_isPending result then
    baseProps None None true true None
  else
    baseProps (Some (default [] (unwrappedData hv))) None false false
      (Some (default (-1) (hv_total hv))).

(** ** Error notification *)

Record Notification := mkNotification {
  note_message : string;
  note_type : string;
  note_detail : option string;
}.

Definition http_error : string := "ra.notification.http_error".

(** The [onError] option given to [useInfiniteGetMany]: the call of
    [notify] it makes. *)
Definition onError (error : JsError) : Notification :=
  {| note_message :=
       match error with
       | ErrString s => s
       | ErrObject _ message =>
           match message with
           | Some m => if String.eqb m "" then http_error else m
           | None => http_error
           end
       end;
     note_type := "error";
     note_detail :=
       match error with
       | ErrString s => Some s
       | ErrObject _ message =>
           match message with
           | Some m => if String.eqb m "" then None else Some m
           | None => None
           end
       end |}.

(** The notifications sent over a sequence of renders. *)
Definition notifications (previous : option (option JsError * bool))
    (renders : list QueryResult) : list Notification :=
  omap (λ c, match c with OnError e => Some (onError e) | _ => None end)
    (onErrorCalls previous renders).

(** ** The claims in the words of the spec *)

(** Notification text as the spec words it: the string itself, else the
    [message] property when present, else the generic label. *)
Definition spec_notification_text (error : JsError) : string :=
  match error with
  | ErrString s => s
  | ErrObject _ (Some m) => m
  | ErrObject _ None => http_error
  end.

(** [n] is the ceiling of the quotient [t / p], that is [n - 1 < t / p ≤ n],
    written without division; there is no quotient for [p = 0]. *)
Definition is_ceiling (t p n : Z) : Prop :=
  (0 < p ∧ (n - 1) * p < t ≤ n * p)
  ∨ (p < 0 ∧ n * p ≤ t < (n - 1) * p).

(** ** Sample data *)

Definition comment (n : Z) (body : string) : RaRecord :=
  mkRecord (IdNum n) {[ "body" := JStr body ]}.

(** A settled query holding one page of two comments. *)
Definition two_comments : list LoadedPage :=
  [ {| data := [comment 1 "fresh"; comment 2 "second"];
       total := Some 2;
       pageParam := 1;
       pageInfo := None;
       meta := JUndef |} ].

Definition settled (pages : list LoadedPage) : QueryResult :=
  {| res_data := Some pages;
     res_error := None;
     res_status := StatusSuccess;
     res_isFetching := false;
     res_hasNextPage := false;
     res_hasPreviousPage := false;
     res_isFetchingNextPage := false;
     res_isFetchingPreviousPage := false |}.

(** A record-by-id cache that already knows comment 1; requests carry no
    metadata. *)
Definition warm_cache : gmap (string * string * option string) RaRecord :=
  {[ ("comments", "1", None) := comment 1 "cached" ]}.

(** A query that failed with [error]. *)
Definition failed (error : JsError) (fetching : bool) : QueryResult :=
  {| res_data := None;
     res_error := Some error;
     res_status := StatusError;
     res_isFetching := fetching;
     res_hasNextPage := false;
     res_hasPreviousPage := false;
     res_isFetchingNextPage := false;
     res_isFetchingPreviousPage := false |}.

Definition by_id_desc : SortPayload := mkSort "id" "DESC".

(** A controller mounted with the default props. *)
Definition fresh : Controller := initialController ∅ 1 25 by_id_desc.

Definition search_x : gmap string jsval := {[ "q" := JStr "x" ]}.
Definition search_shown : gmap string bool := {[ "q" := true ]}.
Definition only_active : gmap string jsval := {[ "status" := JStr "active" ]}.

(** A filter form with one field filled in and four cleared ones. *)
Definition search_form : gmap string jsval :=
  {[ "q" := JStr "x"; "author" := JStr ""; "tags" := JArr [];
     "range" := JObj ∅; "status" := JNull ]}.

(** An owner record whose [id] is [null]. *)
Definition unsaved_post : option (gmap string jsval) :=
  Some {[ "id" := JNull; "title" := JStr "draft" ]}.

(** Calls of [setFilters] that ask for the debounce, each with its time. *)
Definition debouncedCalls
    (calls : list (Z * gmap string jsval * gmap string bool))
    : list (Z * Call) :=
  map (λ c, (c.1.1, CallSetFilters c.1.2 c.2 true)) calls.

(** The calls fall within one window: none comes [debounce] or more after
    the one before it, so the timer never elapses between two of them. *)
Fixpoint inOneWindow (debounce : Z)
    (calls : list (Z * gmap string jsval * gmap string bool)) : Prop :=
  match calls with
  | c :: (c' :: _) as rest =>
      c.1.1 ≤ c'.1.1 < c.1.1 + debounce ∧ inOneWindow debounce rest
  | _ => True
  end.

(** ** The rest of the two hooks *)

(** The three callback effects of [useInfiniteGetMany] in the order they are
    declared, as they run after a render on which each of them is due. *)
Definition hookEffects `{Countable Meta} (resource : string) (meta : Meta)
    (result : QueryResult) (cache : gmap (string * string * Meta) RaRecord)
    : gmap (string * string * Meta) RaRecord * list Callback :=
  ((promotionEffect resource meta result cache).1,
   (promotionEffect resource meta result cache).2
   ++ onErrorEffect result ++ onSettledEffect result).

(** The query key
    [[resource, 'getInfiniteMany', { id, target, pagination, sort, filter, meta }]]. *)
Record QueryKey := mkQueryKey {
  qk_resource : string;
  qk_kind : string;
  qk_id : jsval;
  qk_target : string;
  qk_page : Z;
  qk_perPage : Z;
  qk_sort : SortPayload;
  qk_filter : gmap string jsval;
  qk_meta : jsval;
}.

Definition queryKey (args : HookArgs) : QueryKey :=
  {| qk_resource := ha_resource args;
     qk_kind := "getInfiniteMany";
     qk_id := ha_id args;
     qk_target := ha_target args;
     qk_page := ha_page args;
     qk_perPage := ha_perPage args;
     qk_sort := ha_sort args;
     qk_filter := ha_filter args;
     qk_meta := ha_meta args |}.

(** [queryFn]: the cursor defaults to the page of the pagination. *)
Definition queryFn (args : HookArgs) (pageParam : option Z) : FetchRequest :=
  queryFn_request args (default (ha_page args) pageParam).

(** [String(v)], the conversion a template literal applies: an array joins
    its elements with commas, [null] and [undefined] elements giving the
    empty string. *)
Fixpoint String_of_jsval (v : jsval) : string :=
  match v with
  | JUndef => "undefined"
  | JNull => "null"
  | JBool b => if b then "true" else "false"
  | JNum z => pretty z
  | JStr s => s
  | JArr l =>
      (fix join (l : list jsval) : string :=
         match l with
         | [] => ""
         | x :: rest =>
             (if nullish x then "" else String_of_jsval x)
             +:+ match rest with
                 | [] => ""
                 | _ => "," +:+ join rest
                 end
         end) l
  | JObj _ => "[object Object]"
  end.

(** [props.storeKey ?? `${resource}.${record?.id}.${reference}`]; the
    resource of the context may be missing. *)
Definition storeKey (storeKeyProp resource : option string)
    (record : option (gmap string jsval)) (reference : string) : string :=
  default
    (default "undefined" resource +:+ "." +:+
     String_of_jsval (get record "id") +:+ "." +:+ reference)
    storeKeyProp.

(** ** The field component and the props of the controller *)

(** The props of [useInfiniteReferenceManyFieldController].  The field
    component, its only caller, always passes [page] and [perPage]. *)
Record ControllerParams := mkControllerParams {
  cp_debounce : option Z;
  cp_filter : option (gmap string jsval);
  cp_page : Z;
  cp_perPage : Z;
  cp_record : option (gmap string jsval);
  cp_reference : string;
  cp_resource : option string;
  cp_sort : option SortPayload;
  cp_source : option string;
  cp_storeKey : option string;
  cp_target : string;
  cp_queryOptions : option QueryOptions;
}.

(** The props of [InfiniteReferenceManyField]; [fp_record] is the record of
    the record context. *)
Record FieldProps := mkFieldProps {
  fp_debounce : option Z;
  fp_filter : option (gmap string jsval);
  fp_page : option Z;
  fp_perPage : option Z;
  fp_record : option (gmap string jsval);
  fp_reference : string;
  fp_resource : option string;
  fp_sort : option SortPayload;
  fp_source : option string;
  fp_storeKey : option string;
  fp_target : string;
  fp_queryOptions : option QueryOptions;
}.

Definition defaultFilter : gmap string jsval := ∅.
Definition defaultSort : SortPayload := mkSort "id" "DESC".

(** The props the component hands to the controller, with its defaults
    filled in. *)
Definition InfiniteReferenceManyField (props : FieldProps)
    : ControllerParams :=
  {| cp_debounce := fp_debounce props;
     cp_filter := Some (default defaultFilter (fp_filter props));
     cp_page := default 1 (fp_page props);
     cp_perPage := default 25 (fp_perPage props);
     cp_record := fp_record props;
     cp_reference := fp_reference props;
     cp_resource := fp_resource props;
     cp_sort := Some (default defaultSort (fp_sort props));
     cp_source := Some (default "id" (fp_source props));
     cp_storeKey := fp_storeKey props;
     cp_target := fp_target props;
     cp_queryOptions := fp_queryOptions props |}.

(** The defaults of the controller's own destructuring. *)
Definition controllerDebounce (params : ControllerParams) : Z :=
  default 500 (cp_debounce params).

Definition controllerMount (params : ControllerParams) : Controller :=
  initialController (default defaultFilter (cp_filter params))
    (cp_page params) (cp_perPage params)
    (default (mkSort "id" "DESC") (cp_sort params)).

Definition controllerArgs (params : ControllerParams) (st : Controller)
    : HookArgs :=
  useInfiniteGetMany_args (cp_reference params) (cp_target params)
    (cp_record params) (default "id" (cp_source params))
    (default (mkQueryOptions JUndef None) (cp_queryOptions params)) st.

(** The value given to the pagination context. *)
Record PaginationContext := mkPaginationContext {
  pc_hasNextPage : bool;
  pc_isFetchingNextPage : bool;
  pc_hasPreviousPage : bool;
  pc_isFetchingPreviousPage : bool;
}.

Definition paginationContext (controllerProps : ListControllerResult)
    : PaginationContext :=
  {| pc_hasNextPage := r_hasNextPage controllerProps;
     pc_isFetchingNextPage := r_isFetchingNextPage controllerProps;
     pc_hasPreviousPage := r_hasPreviousPage controllerProps;
     pc_isFetchingPreviousPage := r_isFetchingPreviousPage controllerProps |}.

(** ** Walking through the pages *)

(** Modelled from the spec: [fetchNextPage] and [fetchPreviousPage] of the
    query cache engine are missing.  A forward fetch asks for the cursor
    after the last loaded page and appends the page; a backward fetch asks
    for the cursor before the first loaded page and prepends it; without
    such a cursor nothing is fetched. *)
Definition fetchNextPage (perPage : Z) (fetch : Z → PageResult)
    (pages : list LoadedPage) : list LoadedPage :=
  match last pages with
  | Some lastLoadedPage =>
      match getNextPageParam perPage lastLoadedPage with
      | Some c => pages ++ [queryFn_result c (fetch c)]
      | None => pages
      end
  | None => pages
  end.

Definition fetchPreviousPage (fetch : Z → PageResult)
    (pages : list LoadedPage) : list LoadedPage :=
  match head pages with
  | Some firstLoadedPage =>
      match getPreviousPageParam firstLoadedPage with
      | Some c => queryFn_result c (fetch c) :: pages
      | None => pages
      end
  | None => pages
  end.

(** A data provider that pages through a fixed list of records and reports
    their number, without page information. *)
Definition servePage (records : list RaRecord) (perPage page : Z)
    : PageResult :=
  {| pr_data :=
       take (Z.to_nat perPage)
         (drop (Z.to_nat ((page - 1) * perPage)) records);
     pr_total := Some (Z.of_nat (length records));
     pr_pageInfo := None;
     pr_meta := JUndef |}.

(** The pages 1 to [k] of that provider, as a forward walk loads them. *)
Definition loadedUpTo (records : list RaRecord) (perPage : Z) (k : nat)
    : list LoadedPage :=
  map (λ i, queryFn_result (Z.of_nat i)
              (servePage records perPage (Z.of_nat i)))
      (seq 1 k).

(** A call that starts the debounce timer. *)
Definition startsTimer (c : Call) : bool :=
  match c with
  | CallSetFilters _ _ debounce => debounce
  | _ => false
  end.

(** A render, the one event that runs the filter effect. *)
Definition isRender (c : Call) : bool :=
  match c with
  | Render _ => true
  | _ => false
  end.

(** * Properties *)

(** ** Deep equality agrees with equality of structure *)

Lemma jsize_arr_elem (l : list jsval) (x : jsval) :
  x ∈ l → (jsize x < jsize (JArr l))%nat.
Proof.
  simpl. induction 1; simpl; lia.
Qed.

Lemma jsize_obj_elem (m : gmap string jsval) (k : string) (x : jsval) :
  m !! k = Some x → (jsize x < jsize (JObj m))%nat.
Proof.
  simpl. intros Hk.
  rewrite (map_fold_delete_L _ _ k x m); [lia | | done].
  intros; lia.
Qed.

(** Induction on values that reaches inside arrays and objects. *)
Lemma jsval_deep_ind (P : jsval → Prop) :
  P JUndef → P JNull →
  (∀ b, P (JBool b)) → (∀ z, P (JNum z)) → (∀ s, P (JStr s)) →
  (∀ l, Forall P l → P (JArr l)) →
  (∀ m, map_Forall (λ _, P) m → P (JObj m)) →
  ∀ v, P v.
Proof.
  intros HU HN HB HZ HS HA HO v.
  remember (jsize v) as n eqn:Hn.
  revert v Hn. induction n as [n IH] using lt_wf_ind.
  intros [] Hn; auto.
  - apply HA, Forall_forall. intros x Hx.
    apply (IH (jsize x)); [|done]. subst n. by apply jsize_arr_elem.
  - apply HO. intros k x Hx.
    apply (IH (jsize x)); [|done]. subst n. by eapply jsize_obj_elem.
Qed.

Lemma fold_andb_true {K} `{Countable K} (m : gmap K bool) :
  map_fold (λ _ (x : bool) acc, x && acc) true m = true
  ↔ map_Forall (λ _ x, x = true) m.
Proof.
  induction m as [|k x m Hk Hfold IH] using map_first_key_ind.
  - rewrite map_fold_empty. split; [intros _; apply map_Forall_empty | done].
  - rewrite map_fold_insert_first_key by done.
    rewrite andb_true_iff, IH, map_Forall_insert by done. tauto.
Qed.

Lemma isEqual_arr (l1 l2 : list jsval) :
  Forall (λ x, ∀ y, isEqual x y = true ↔ x = y) l1 →
  isEqual (JArr l1) (JArr l2) = true ↔ l1 = l2.
Proof.
  intros HF. revert l2. induction HF as [|x l1 Hx _ IH]; intros [|y l2];
    simpl; try (split; [discriminate | congruence]); [done|].
  simpl in IH. rewrite andb_true_iff, Hx, IH.
  split; [intros [-> ->]; done | intros [= -> ->]; done].
Qed.

Lemma isEqual_obj (m1 m2 : gmap string jsval) :
  map_Forall (λ _ x, ∀ y, isEqual x y = true ↔ x = y) m1 →
  isEqual (JObj m1) (JObj m2) = true ↔ m1 = m2.
Proof.
  intros HF. simpl. rewrite fold_andb_true. split.
  - intros Hall. apply map_eq. intros k.
    specialize (Hall k). rewrite lookup_merge in Hall.
    destruct (m1 !! k) as [x|] eqn:H1, (m2 !! k) as [y|] eqn:H2;
      simpl in Hall; try done.
    + f_equal. apply (HF k x H1). by apply Hall.
    + by specialize (Hall false eq_refl).
    + by specialize (Hall false eq_refl).
  - intros <- k b. rewrite lookup_merge.
    destruct (m1 !! k) as [x|] eqn:H1; simpl; [|done].
    intros [= <-]. by apply (HF k x H1).
Qed.

(** [isEqual] holds exactly of values with the same contents. *)
Lemma isEqual_spec (a b : jsval) : isEqual a b = true ↔ a = b.
Proof.
  revert b. induction a as [| |x|x|x|l IH|m IH] using jsval_deep_ind;
    intros b.
  1-5: destruct b; simpl; try (split; [discriminate | congruence]);
    try done; rewrite bool_decide_eq_true; split; congruence.
  - destruct b; try (simpl; split; [discriminate | congruence]).
    rewrite isEqual_arr by done. split; congruence.
  - destruct b; try (simpl; split; [discriminate | congruence]).
    rewrite isEqual_obj by done. split; congruence.
Qed.

Lemma isEqual_false (a b : jsval) : isEqual a b = false ↔ a ≠ b.
Proof.
  rewrite <-isEqual_spec. destruct (isEqual a b); split; congruence.
Qed.

(** ** Cursor advancement *)

Lemma total_or_zero_Some (t : Z) : total_or_zero (Some t) = t.
Proof.
  unfold total_or_zero. destruct (Z.eqb_spec t 0); congruence.
Qed.

(** Where the quotient exists the rounded-up division is its ceiling. *)
Lemma math_ceil_div_ceiling (t p n : Z) :
  is_ceiling t p n → math_ceil_div t p = Finite n.
Proof.
  intros Hceil. unfold math_ceil_div.
  destruct (Z.eqb_spec p 0) as [->|_]; [destruct Hceil; lia|].
  assert (- t / p = - n) as ->; [|f_equal; lia].
  symmetry. destruct Hceil as [[Hp Ht]|[Hp Ht]].
  - apply (Z.div_unique_pos (- t) p (- n) (n * p - t)); lia.
  - apply (Z.div_unique_neg (- t) p (- n) (n * p - t)); lia.
Qed.

(** The ceiling is unique, so [is_ceiling] names one number. *)
Lemma is_ceiling_unique (t p n n' : Z) :
  is_ceiling t p n → is_ceiling t p n' → n = n'.
Proof.
  intros Hn Hn'. apply math_ceil_div_ceiling in Hn, Hn'. congruence.
Qed.

Lemma math_ceil_div_zero (p : Z) :
  math_ceil_div 0 p = if p =? 0 then NaN else Finite 0.
Proof.
  unfold math_ceil_div. destruct (Z.eqb_spec p 0); [done|].
  by rewrite Z.opp_0, Z.div_0_l.
Qed.

(** C1.  For a page fetched at cursor [c] with result [r]: when [r] carries
    page information, the next cursor is [c + 1] exactly when [hasNextPage]
    is set and the previous cursor is [c - 1] exactly when [hasPreviousPage]
    is set; when it carries none, the next cursor is [c + 1] exactly when
    [c] is below the ceiling of [total / perPage], and the previous cursor is
    [c - 1] exactly when [c] is not 1.  In each case no cursor exists
    otherwise. *)
Theorem cursor_advancement_dual_policy (perPage c : Z) (r : PageResult) :
  (∀ info, pr_pageInfo r = Some info →
     getNextPageParam perPage (queryFn_result c r)
       = (if flag (pi_hasNextPage info) then Some (c + 1) else None)
     ∧ getPreviousPageParam (queryFn_result c r)
       = (if flag (pi_hasPreviousPage info) then Some (c - 1) else None))
  ∧ (pr_pageInfo r = None →
     (∀ t totalPages,
        pr_total r = Some t → is_ceiling t perPage totalPages →
        getNextPageParam perPage (queryFn_result c r)
          = (if bool_decide (c < totalPages) then Some (c + 1) else None))
     ∧ getPreviousPageParam (queryFn_result c r)
       = (if bool_decide (c ≠ 1) then Some (c - 1) else None)).
Proof.
  unfold getNextPageParam, getPreviousPageParam; simpl. split.
  - intros info ->. done.
  - intros ->. split.
    + intros t n -> Hceil.
      rewrite total_or_zero_Some, (math_ceil_div_ceiling t perPage n) by done.
      simpl. destruct (Z.ltb_spec c n); case_bool_decide; done || lia.
    + destruct (Z.eqb_spec c 1); case_bool_decide; done || lia.
Qed.

(** The spec's example: 95 records in pages of 25 make 4 pages, so page 4
    has no next cursor and page 3 has one. *)
Lemma cursor_advancement_dual_policy_witness :
  getNextPageParam 25 (queryFn_result 4 (mkPageResult [] (Some 95) None JUndef))
    = None
  ∧ getNextPageParam 25
      (queryFn_result 3 (mkPageResult [] (Some 95) None JUndef))
    = Some 4
  ∧ getPreviousPageParam
      (queryFn_result 4 (mkPageResult [] (Some 95) None JUndef))
    = Some 3.
Proof.
  pose (r := mkPageResult [] (Some 95) None JUndef).
  assert (Hc : is_ceiling 95 25 4) by (unfold is_ceiling; lia).
  split; [|split].
  - apply (proj1 (proj2 (cursor_advancement_dual_policy 25 4 r) eq_refl)
             95 4 eq_refl); exact Hc.
  - apply (proj1 (proj2 (cursor_advancement_dual_policy 25 3 r) eq_refl)
             95 4 eq_refl); exact Hc.
  - apply (proj2 (proj2 (cursor_advancement_dual_policy 25 4 r) eq_refl)).
Defined.

(** A page size of 0 has no quotient: the division gives an infinity or no
    number at all, and a next cursor exists exactly when the total is
    positive. *)
Lemma zero_perPage_next_cursor (c : Z) (r : PageResult) :
  pr_pageInfo r = None →
  getNextPageParam 0 (queryFn_result c r)
  = (if bool_decide (0 < total_or_zero (pr_total r)) then Some (c + 1)
     else None).
Proof.
  intros Hi. unfold getNextPageParam, math_ceil_div; simpl. rewrite Hi; simpl.
  destruct (Z.ltb_spec 0 (total_or_zero (pr_total r)));
    [by rewrite bool_decide_eq_true_2|].
  rewrite bool_decide_eq_false_2 by lia.
  by destruct (total_or_zero (pr_total r) <? 0).
Qed.

(** Page information is authoritative: without [hasNextPage] there is no
    next cursor, whatever [total] and [perPage] are. *)
Lemma pageInfo_overrides_total (perPage c : Z) (r : PageResult) (prev : option bool) :
  pr_pageInfo r = Some (mkPageInfo (Some false) prev) →
  getNextPageParam perPage (queryFn_result c r) = None.
Proof.
  intros Hr. unfold getNextPageParam; simpl. by rewrite Hr.
Qed.

(** C10, as the code has it.  When the result has neither page information
    nor a total, the total counts as 0: the next cursor is the one a total of
    0 gives, none exists for a cursor that is not negative, and the previous
    cursor [c - 1] exists exactly when [c] is not 1. *)
Theorem missing_total_counts_as_zero (perPage c : Z) (r : PageResult) :
  pr_pageInfo r = None → pr_total r = None →
  getNextPageParam perPage (queryFn_result c r)
    = getNextPageParam perPage
        (queryFn_result c (mkPageResult (pr_data r) (Some 0) None (pr_meta r)))
  ∧ (0 ≤ c → getNextPageParam perPage (queryFn_result c r) = None)
  ∧ getPreviousPageParam (queryFn_result c r)
    = (if bool_decide (c ≠ 1) then Some (c - 1) else None).
Proof.
  intros Hi Ht. unfold getNextPageParam, getPreviousPageParam; simpl.
  rewrite Hi, Ht. simpl. split; [done|]. split.
  - intros Hc. rewrite math_ceil_div_zero.
    destruct (perPage =? 0); simpl; [done|].
    destruct (Z.ltb_spec c 0); [lia | done].
  - destruct (Z.eqb_spec c 1); case_bool_decide; done || lia.
Qed.

Lemma missing_total_counts_as_zero_witness :
  getNextPageParam 25 (queryFn_result 7 (mkPageResult [] None None JUndef))
    = None
  ∧ getPreviousPageParam (queryFn_result 7 (mkPageResult [] None None JUndef))
    = Some 6.
Proof.
  pose proof (missing_total_counts_as_zero 25 7
                (mkPageResult [] None None JUndef) eq_refl eq_refl)
    as (_ & Hnext & Hprev).
  split; [apply Hnext; lia | exact Hprev].
Defined.

(** C10 as stated fails below zero: with no total and no page information,
    cursor -1 has the next cursor 0. *)
Lemma missing_total_negative_cursor :
  pr_pageInfo (mkPageResult [] None None JUndef) = None
  ∧ pr_total (mkPageResult [] None None JUndef) = None
  ∧ getNextPageParam 25
      (queryFn_result (-1) (mkPageResult [] None None JUndef))
    = Some 0.
Proof. repeat split. Qed.

(** With no total the next cursor exists exactly for a negative cursor and a
    page size other than 0. *)
Lemma missing_total_next_cursor (perPage c : Z) (r : PageResult) :
  pr_pageInfo r = None → pr_total r = None →
  getNextPageParam perPage (queryFn_result c r)
    = (if bool_decide (c < 0 ∧ perPage ≠ 0) then Some (c + 1) else None).
Proof.
  intros Hi Ht. unfold getNextPageParam; simpl. rewrite Hi, Ht; simpl.
  rewrite math_ceil_div_zero.
  destruct (Z.eqb_spec perPage 0); simpl.
  - case_bool_decide; [lia | done].
  - destruct (Z.ltb_spec c 0); case_bool_decide; done || lia.
Qed.

(** ** Record promotion *)

Section PromotionFacts.
Context {Meta : Type} `{Countable Meta}.
Implicit Types (cache : gmap (string * string * Meta) RaRecord).
Implicit Types (records : list RaRecord) (pages : list LoadedPage).

(** One write: an entry that exists stays, a missing one is created. *)
Lemma lookup_setQueryData_keepOld cache key record k :
  setQueryData key (keepOld record) cache !! k
  = match cache !! k with
    | Some old => Some old
    | None => if decide (key = k) then Some record else None
    end.
Proof.
  unfold setQueryData, keepOld.
  destruct (decide (key = k)) as [->|Hne].
  - rewrite lookup_insert_eq. by destruct (cache !! k).
  - rewrite lookup_insert_ne by done. by destruct (cache !! k).
Qed.

(** The nested loops visit the records of all pages in order. *)
Lemma populateGetOneCache_flat resource (meta : Meta) pages cache :
  populateGetOneCache resource meta pages cache
  = foldl (λ cache record,
             setQueryData (getOneKey resource record meta)
               (keepOld record) cache)
          cache (concat (map data pages)).
Proof.
  unfold populateGetOneCache. revert cache.
  induction pages as [|page pages IH]; intros cache; simpl; [done|].
  by rewrite foldl_app, IH.
Qed.

Lemma lookup_write_all resource (meta : Meta) records cache k :
  foldl (λ cache record,
           setQueryData (getOneKey resource record meta)
             (keepOld record) cache)
        cache records !! k
  = match cache !! k with
    | Some old => Some old
    | None =>
        head (base.filter (λ record, getOneKey resource record meta = k)
                records)
    end.
Proof.
  revert cache. induction records as [|record records IH]; intros cache.
  - simpl. by destruct (cache !! k).
  - simpl. rewrite IH, lookup_setQueryData_keepOld.
    rewrite filter_cons.
    destruct (cache !! k); [done|].
    destruct (decide (getOneKey resource record meta = k)); done.
Qed.

Lemma lookup_populateGetOneCache resource (meta : Meta) pages cache k :
  populateGetOneCache resource meta pages cache !! k
  = match cache !! k with
    | Some old => Some old
    | None => firstWriter resource meta pages k
    end.
Proof.
  rewrite populateGetOneCache_flat. apply lookup_write_all.
Qed.

(** The length the effect compares with the ceiling is the number of records
    in all the pages. *)
Lemma allPagesDataLength_count pages :
  allPagesDataLength pages = Z.of_nat (length (concat (map data pages))).
Proof.
  unfold allPagesDataLength.
  assert (Hgen : ∀ acc,
    foldl (λ acc page, acc + Z.of_nat (length (data page))) acc pages
    = acc + Z.of_nat (length (concat (map data pages)))).
  { induction pages as [|page pages IH]; intros acc; simpl; [lia|].
    rewrite IH, length_app. lia. }
  rewrite Hgen. lia.
Qed.

Lemma firstWriter_is_Some resource (meta : Meta) pages page record :
  page ∈ pages → record ∈ data page →
  is_Some (firstWriter resource meta pages (getOneKey resource record meta)).
Proof.
  intros Hpage Hrecord. unfold firstWriter.
  assert (Hin : record ∈ base.filter
            (λ r, getOneKey resource r meta = getOneKey resource record meta)
            (concat (map data pages))).
  { apply list_elem_of_filter. split; [done|].
    apply list_elem_of_In, in_concat. exists (data page).
    split; [apply in_map|]; by apply list_elem_of_In. }
  destruct (base.filter _ _) as [|x l]; [by apply elem_of_nil in Hin|].
  by eexists.
Qed.

(** C2.  On a settled state (data present, no error, not fetching): when the
    pages hold at most 100 records in all, every entry already in the
    record-by-id cache is kept as it is, every record of every page has an
    entry afterwards, and a key that had no entry gets the first record
    written under it; when they hold more than 100, the cache is not
    touched. *)
Theorem record_promotion_first_writer_wins
    (resource : string) (meta : Meta) (result : QueryResult) pages cache :
  res_data result = Some pages →
  res_error result = None →
  res_isFetching result = false →
  (Z.of_nat (length (concat (map data pages))) ≤ 100 →
     (∀ k old, cache !! k = Some old →
        (promotionEffect resource meta result cache).1 !! k = Some old)
     ∧ (∀ page record, page ∈ pages → record ∈ data page →
        is_Some ((promotionEffect resource meta result cache).1
                   !! getOneKey resource record meta))
     ∧ (∀ k, cache !! k = None →
        (promotionEffect resource meta result cache).1 !! k
        = firstWriter resource meta pages k))
  ∧ (100 < Z.of_nat (length (concat (map data pages))) →
     (promotionEffect resource meta result cache).1 = cache).
Proof.
  intros Hdata Herror Hfetching.
  unfold promotionEffect. rewrite Hdata, Herror, Hfetching.
  rewrite bool_decide_eq_false_2 by (by intros [? ?]). simpl.
  rewrite allPagesDataLength_count. unfold MAX_DATA_LENGTH_TO_CACHE. split.
  - intros Hle. rewrite (proj2 (Z.leb_le _ _) Hle).
    split; [|split].
    + intros k old Hk. by rewrite lookup_populateGetOneCache, Hk.
    + intros page record Hpage Hrecord.
      rewrite lookup_populateGetOneCache.
      destruct (cache !! _); [by eexists|].
      by eapply firstWriter_is_Some.
    + intros k Hk. by rewrite lookup_populateGetOneCache, Hk.
  - intros Hgt. by rewrite (proj2 (Z.leb_gt _ _) Hgt).
Qed.

(** Outside a settled state the effect writes nothing and calls nothing. *)
Lemma promotion_only_when_settled
    (resource : string) (meta : Meta) (result : QueryResult) cache :
  res_data result = None ∨ is_Some (res_error result)
    ∨ res_isFetching result = true →
  promotionEffect resource meta result cache = (cache, []).
Proof.
  unfold promotionEffect. intros [->|[Herr|Hf]]; [done| |].
  - destruct (res_data result); [|done].
    by rewrite bool_decide_eq_true_2.
  - destruct (res_data result); [|done].
    by rewrite Hf, orb_true_r.
Qed.
End PromotionFacts.

Lemma record_promotion_first_writer_wins_witness :
  (promotionEffect "comments" None (settled two_comments) warm_cache).1
    !! ("comments", "1", None) = Some (comment 1 "cached")
  ∧ (promotionEffect "comments" None (settled two_comments) warm_cache).1
    !! ("comments", "2", None) = Some (comment 2 "second").
Proof.
  destruct (record_promotion_first_writer_wins "comments" None
              (settled two_comments) two_comments warm_cache
              eq_refl eq_refl eq_refl) as [Hle _].
  destruct Hle as (Hkeep & _ & Hfirst); [simpl; lia|].
  split.
  - apply Hkeep. reflexivity.
  - rewrite Hfirst; reflexivity.
Defined.

(** The spec's example of the ceiling: once a page of 50 and a page of 60
    are loaded, the settlement that sees both writes nothing. *)
Lemma promotion_skipped_above_ceiling :
  let page1 := mkLoadedPage (map (λ n, comment (Z.of_nat n) "a") (seq 0 50))
                 (Some 110) 1 None JUndef in
  let page2 := mkLoadedPage (map (λ n, comment (Z.of_nat n) "b") (seq 50 60))
                 (Some 110) 2 None JUndef in
  (promotionEffect "comments" None (settled [page1; page2]) warm_cache).1
  = warm_cache.
Proof. reflexivity. Qed.

(** The settlement before it, which saw only the page of 50, did promote
    that page. *)
Lemma promotion_of_first_page :
  let page1 := mkLoadedPage (map (λ n, comment (Z.of_nat n) "a") (seq 0 50))
                 (Some 110) 1 None JUndef in
  (promotionEffect "comments" (None : option string) (settled [page1]) ∅).1
    !! ("comments", "49", None) = Some (comment 49 "a").
Proof. reflexivity. Qed.

(** ** The result of the controller *)

Lemma reduce_pages (pages : list LoadedPage) (acc : list RaRecord) :
  foldl (λ acc page, acc ++ data page) acc pages
  = acc ++ concat (map data pages).
Proof.
  revert acc. induction pages as [|page pages IH]; intros acc; simpl.
  - by rewrite app_nil_r.
  - by rewrite IH, app_assoc.
Qed.

(** C3.  On success the result's data is the records of all loaded pages in
    page order, its total is the total of the first page, or -1 when that
    page reports none (so also when no page reports one), and it is not
    pending. *)
Theorem success_result_shape (reference : string) (st : Controller)
    (result : QueryResult) (pages : list LoadedPage) :
  res_status result = StatusSuccess →
  res_error result = None →
  res_data result = Some pages →
  r_data (controllerResult reference st (useInfiniteGetMany_return result))
    = Some (concat (map data pages))
  ∧ r_total (controllerResult reference st (useInfiniteGetMany_return result))
    = Some (default (-1) (head pages ≫= total))
  ∧ (Forall (λ page, total page = None) pages →
     r_total (controllerResult reference st (useInfiniteGetMany_return result))
     = Some (-1))
  ∧ r_isPending
      (controllerResult reference st (useInfiniteGetMany_return result))
    = false.
Proof.
  intros Hstatus Herror Hdata.
  unfold controllerResult, useInfiniteGetMany_return, unwrappedData,
    res_isPending.
  rewrite Hdata; simpl. rewrite Herror, Hstatus, Hdata; simpl.
  rewrite reduce_pages; simpl.
  repeat split.
  intros Hall. destruct Hall as [|page rest Hpage _]; simpl; [done|].
  by rewrite Hpage.
Qed.

Lemma success_result_shape_witness :
  r_data (controllerResult "comments" fresh
            (useInfiniteGetMany_return (settled two_comments)))
    = Some [comment 1 "fresh"; comment 2 "second"]
  ∧ r_total (controllerResult "comments" fresh
               (useInfiniteGetMany_return (settled two_comments)))
    = Some 2.
Proof.
  destruct (success_result_shape "comments" fresh (settled two_comments)
              two_comments eq_refl eq_refl eq_refl) as (Hd & Ht & _).
  split; [exact Hd | exact Ht].
Defined.

(** ** The owner record is not ready *)

Lemma queryIsEnabled_false (entry : EnabledOption) :
  queryIsEnabled entry = false ↔ resolveEnabled entry = JBool false.
Proof.
  unfold queryIsEnabled.
  destruct (resolveEnabled entry) as [| |[]| | | |]; split; congruence.
Qed.

(** C4, as the code has it.  Let the owner's identifying field be [null] or
    missing, for a source that names a field of the record itself.  The
    query is then disabled exactly when the query options carry no [enabled]
    entry of their own, or one that is [false] or a predicate answering
    [false].  When it is disabled, a query seen for the first time issues no
    fetch and the result is the pending one: no data, pending, no error.
    When it is not, the page is fetched for the empty identifier. *)
Theorem owner_not_ready_is_pending (reference target source : string)
    (record : option (gmap string jsval)) (queryOptions : QueryOptions)
    (st : Controller) :
  namesOwnField source = true →
  nullish (get record source) = true →
  let args :=
    useInfiniteGetMany_args reference target record source queryOptions st in
  let result := controllerResult reference st
                  (useInfiniteGetMany_return (useInfiniteQuery_first args).1) in
  (ha_enabled args = false
   ↔ ∀ entry, qo_enabled queryOptions = Some entry →
              resolveEnabled entry = JBool false)
  ∧ (ha_enabled args = false →
     (useInfiniteQuery_first args).2 = []
     ∧ r_data result = None
     ∧ r_isPending result = true
     ∧ r_error result = None)
  ∧ (ha_enabled args = true →
     fr_id <$> (useInfiniteQuery_first args).2 = [JStr ""]).
Proof.
  intros _ Hnull. simpl.
  unfold useInfiniteQuery_first, useInfiniteGetMany_args, enabledOption; simpl.
  rewrite Hnull. simpl. split; [|split].
  - rewrite queryIsEnabled_false.
    destruct (qo_enabled queryOptions) as [entry|]; simpl.
    + split; [by intros Hoff ? [= <-] | by intros Hoff; apply Hoff].
    + split; [by intros _ ? | done].
  - by intros ->.
  - by intros ->.
Qed.

Lemma owner_not_ready_is_pending_witness :
  ha_enabled (useInfiniteGetMany_args "comments" "post_id" unsaved_post "id"
                (mkQueryOptions JUndef (Some (EnabledPredicate (JBool false))))
                fresh) = false
  ∧ (useInfiniteQuery_first
       (useInfiniteGetMany_args "comments" "post_id" unsaved_post "id"
          (mkQueryOptions JUndef None) fresh)).2 = [].
Proof.
  split.
  - apply (proj1 (owner_not_ready_is_pending "comments" "post_id" "id"
                    unsaved_post
                    (mkQueryOptions JUndef
                       (Some (EnabledPredicate (JBool false))))
                    fresh eq_refl eq_refl)).
    intros entry Hentry. injection Hentry as <-. reflexivity.
  - apply (proj1 (proj2 (owner_not_ready_is_pending "comments" "post_id" "id"
                           unsaved_post (mkQueryOptions JUndef None) fresh
                           eq_refl eq_refl))).
    reflexivity.
Defined.

(** C4 as stated fails: the [enabled] entry of the query options is spread
    over the controller's own, so with [enabled: true], and just as well
    with [enabled: undefined], the query runs although the owner's [id] is
    [null], and a fetch for the empty identifier is issued. *)
Lemma owner_not_ready_but_enabled :
  let args := useInfiniteGetMany_args "comments" "post_id" unsaved_post "id"
                (mkQueryOptions JUndef (Some (EnabledValue (JBool true))))
                fresh in
  let args' := useInfiniteGetMany_args "comments" "post_id" unsaved_post "id"
                 (mkQueryOptions JUndef (Some (EnabledValue JUndef)))
                 fresh in
  nullish (get unsaved_post "id") = true
  ∧ ha_enabled args = true
  ∧ fr_id <$> (useInfiniteQuery_first args).2 = [JStr ""]
  ∧ ha_enabled args' = true
  ∧ fr_id <$> (useInfiniteQuery_first args').2 = [JStr ""].
Proof. repeat split. Qed.

(** ** Error notification *)

Lemma notifications_cons (previous : option (option JsError * bool))
    (result : QueryResult) (renders : list QueryResult) :
  notifications previous (result :: renders)
  = notifications previous [result]
    ++ notifications (Some (errorDeps result)) renders.
Proof.
  unfold notifications. simpl. by rewrite app_nil_r, omap_app.
Qed.

Lemma Object_is_error_refl (e : option JsError) : Object_is_error e e = true.
Proof.
  destruct e as [[s|r m]|]; simpl; [| |done]; by apply bool_decide_eq_true_2.
Qed.

(** C5, as the code has it.  The notification has type "error"; its text is
    the error itself for a string, the message of an object that has a
    non-empty one, and the generic label for an object whose message is
    missing or empty.  A render that brings an error with the fetch over,
    after a render with other dependencies or as the first one, notifies
    once; a render with the same error and fetch state as the one before
    notifies nothing, and neither does any render made while fetching. *)
Theorem error_notification_contract :
  (∀ error, note_type (onError error) = "error")
  ∧ (∀ s, note_message (onError (ErrString s)) = s)
  ∧ (∀ ref m, m ≠ "" → note_message (onError (ErrObject ref (Some m))) = m)
  ∧ (∀ ref, note_message (onError (ErrObject ref (Some ""))) = http_error
          ∧ note_message (onError (ErrObject ref None)) = http_error)
  ∧ (∀ previous result error,
       res_error result = Some error →
       res_isFetching result = false →
       (∀ deps, previous = Some deps →
                sameErrorDeps deps (errorDeps result) = false) →
       notifications previous [result] = [onError error])
  ∧ (∀ result, notifications (Some (errorDeps result)) [result] = [])
  ∧ (∀ previous result,
       res_isFetching result = true → notifications previous [result] = []).
Proof.
  split; [done|]. split; [done|]. split.
  { intros ref m Hm. simpl. destruct (String.eqb_spec m ""); done. }
  split; [done|]. split; [|split].
  - intros previous result error Herr Hfetch Hdeps.
    unfold notifications, onErrorCalls, onErrorEffect, useEffect.
    rewrite Herr, Hfetch.
    destruct previous as [deps|]; [|done].
    by rewrite (Hdeps deps eq_refl).
  - intros result. unfold notifications, onErrorCalls, useEffect.
    unfold sameErrorDeps. rewrite Object_is_error_refl.
    by rewrite bool_decide_eq_true_2.
  - intros previous result Hfetch.
    unfold notifications, onErrorCalls, onErrorEffect, useEffect.
    rewrite Hfetch.
    destruct previous as [deps|], (res_error result);
      try destruct (sameErrorDeps _ _); done.
Qed.

(** The spec's example: a fetch rejected with the message "boom" notifies
    once with that text, however often the component renders again and also
    while a refetch is under way. *)
Lemma error_notification_contract_witness :
  notifications None
    [ failed (ErrObject 1 (Some "boom")) false;
      failed (ErrObject 1 (Some "boom")) false;
      failed (ErrObject 1 (Some "boom")) true;
      failed (ErrObject 1 (Some "boom")) true ]
  = [ mkNotification "boom" "error" (Some "boom") ].
Proof.
  destruct error_notification_contract
    as (_ & _ & _ & _ & Hfire & Hsame & Hfetching).
  rewrite notifications_cons.
  rewrite (Hfire None (failed (ErrObject 1 (Some "boom")) false)
             (ErrObject 1 (Some "boom")) eq_refl eq_refl)
    by discriminate.
  rewrite notifications_cons, Hsame.
  rewrite notifications_cons.
  rewrite !(Hfetching _ (failed (ErrObject 1 (Some "boom")) true) eq_refl).
  reflexivity.
Defined.

(** C5 as stated fails on a message that is present but empty: the text is
    the generic label, not the message. *)
Lemma empty_message_gets_label :
  spec_notification_text (ErrObject 1 (Some "")) = ""
  ∧ note_message (onError (ErrObject 1 (Some ""))) = http_error
  ∧ note_message (onError (ErrObject 1 (Some "")))
    ≠ spec_notification_text (ErrObject 1 (Some "")).
Proof. repeat split. discriminate. Qed.

(** ** Sorting and filtering *)

Lemma actionsSince_app (st st' : Controller) (actions : list Action) :
  log st' = log st ++ actions → actionsSince st st' = actions.
Proof.
  unfold actionsSince. intros ->. by rewrite drop_app_length.
Qed.

(** C9.  [setSort] stores the given sort and sets the page to 1; the filter
    values and the displayed filters stay as they were, and so do the page
    size and a pending debounced call. *)
Theorem setSort_resets_page_only (s : SortPayload) (st : Controller) :
  page (setSort s st) = 1
  ∧ sort (setSort s st) = s
  ∧ filterValues (setSort s st) = filterValues st
  ∧ displayedFilters (setSort s st) = displayedFilters st
  ∧ perPage (setSort s st) = perPage st
  ∧ pendingFilters (setSort s st) = pendingFilters st
  ∧ actionsSince st (setSort s st) = [SortStateSet s; PageSet 1].
Proof.
  repeat split. apply actionsSince_app. simpl. by rewrite <-app_assoc.
Qed.

(** The values the sanitation takes for empty. *)
Lemma isEmpty_false (v : jsval) :
  isEmpty v = false
  ↔ v ≠ JStr "" ∧ v ≠ JArr [] ∧ v ≠ JObj ∅ ∧ v ≠ JNull ∧ v ≠ JUndef.
Proof.
  destruct v as [| |b|z|s|l|m]; simpl.
  1-2: split; [discriminate | intros (?&?&?&?&?); done].
  1-2: split; [intros _; repeat split; discriminate | done].
  - destruct (String.eqb_spec s "") as [->|Hs].
    + split; [discriminate | intros (?&?); done].
    + split; [intros _; repeat split; congruence | done].
  - destruct l as [|x l].
    + split; [discriminate | intros (?&?&?); done].
    + split; [intros _; repeat split; discriminate | done].
  - case_bool_decide as Hm.
    + apply map_size_empty_iff in Hm as ->.
      split; [discriminate | intros (?&?&?&?); done].
    + split; [|done]. intros _. repeat split; try discriminate.
      intros [= ->]. by apply Hm.
Qed.

Lemma lookup_removeEmpty (filters : gmap string jsval) (k : string) (v : jsval) :
  removeEmpty filters !! k = Some v
  ↔ filters !! k = Some v ∧ isEmpty v = false.
Proof.
  unfold removeEmpty. by rewrite map_lookup_filter_Some.
Qed.

(** C8.  A call of [setFilters] without debounce commits at once: the filter
    values become the given ones without the entries that are an empty
    string, an empty array or object, [null] or [undefined]; the displayed
    filters become the given ones; the page becomes 1.  Each of the three
    setters is called once and no timer is started. *)
Theorem setFilters_commits_at_once (now : Z) (filters : gmap string jsval)
    (shown : gmap string bool) (st : Controller) :
  filterValues (setFilters now filters shown false st) = removeEmpty filters
  ∧ (∀ k v,
       filterValues (setFilters now filters shown false st) !! k = Some v
       ↔ filters !! k = Some v
         ∧ v ≠ JStr "" ∧ v ≠ JArr [] ∧ v ≠ JObj ∅ ∧ v ≠ JNull ∧ v ≠ JUndef)
  ∧ displayedFilters (setFilters now filters shown false st) = shown
  ∧ page (setFilters now filters shown false st) = 1
  ∧ pendingFilters (setFilters now filters shown false st) = pendingFilters st
  ∧ actionsSince st (setFilters now filters shown false st)
    = [FilterValuesSet (removeEmpty filters); DisplayedFiltersSet shown;
       PageSet 1].
Proof.
  split; [done|]. split.
  { intros k v. simpl. by rewrite lookup_removeEmpty, isEmpty_false. }
  repeat split. apply actionsSince_app. simpl. by rewrite <-!app_assoc.
Qed.

Lemma setFilters_commits_at_once_witness :
  filterValues (setFilters 0 search_form search_shown false fresh) = search_x
  ∧ page (setFilters 0 search_form search_shown false fresh) = 1.
Proof.
  destruct (setFilters_commits_at_once 0 search_form search_shown fresh)
    as (Hvalues & _ & _ & Hpage & _).
  split; [|exact Hpage].
  rewrite Hvalues. vm_compute. reflexivity.
Defined.

(** ** The default filter changes *)

(** C6, as the code has it.  After a render whose [filter] prop differs in
    content from the one last seen, the filter values are that prop and it
    becomes the one last seen, whatever the filter values were; a debounced
    call that is pending stays pending, and when its timer fires the filter
    values become the sanitised values of that call.  A prop with the
    contents last seen changes nothing. *)
Theorem default_filter_change_resets_values (debounce : Z)
    (filter : gmap string jsval) (st : Controller) :
  (filter ≠ filterRef st →
     filterValues (filterEffect filter st) = filter
     ∧ filterRef (filterEffect filter st) = filter
     ∧ pendingFilters (filterEffect filter st) = pendingFilters st
     ∧ (∀ lastCallTime filters shown now,
          pendingFilters st = Some (lastCallTime, filters, shown) →
          lastCallTime + debounce ≤ now →
          filterValues (fireTimer debounce now (filterEffect filter st))
          = removeEmpty filters))
  ∧ (filter = filterRef st → filterEffect filter st = st).
Proof.
  unfold filterEffect. split.
  - intros Hne.
    assert (isEqual (JObj filter) (JObj (filterRef st)) = false) as ->.
    { apply isEqual_false. congruence. }
    simpl. repeat split.
    intros t0 filters shown now Hpending Hdue.
    unfold fireTimer; simpl. rewrite Hpending.
    by rewrite (proj2 (Z.leb_le _ _) Hdue).
  - intros ->.
    by rewrite (proj2 (isEqual_spec _ _) eq_refl).
Qed.

(** The spec's example: the default goes from [{}] to [{status: "active"}]
    while the user's filter is [{q: "x"}]. *)
Lemma default_filter_change_resets_values_witness :
  filterValues
    (filterEffect only_active (setFilters 0 search_x search_shown false fresh))
  = only_active.
Proof.
  apply (proj1 (default_filter_change_resets_values 500 only_active
                  (setFilters 0 search_x search_shown false fresh))).
  intros Heq. apply (f_equal (λ m, m !! "status")) in Heq.
  vm_compute in Heq. discriminate Heq.
Defined.

(** C6 as stated fails for an edit that is still in the debounce window: the
    reset does not cancel it, and when the timer fires the user's filter
    replaces the new default, which later renders do not restore. *)
Lemma pending_edit_survives_default_change :
  let st1 := run 500 [ (0, CallSetFilters search_x search_shown true);
                       (100, Render only_active) ] fresh in
  let st2 := run 500 [ (600, Render only_active) ] st1 in
  filterValues st1 = only_active
  ∧ filterRef st2 = only_active
  ∧ filterValues st2 = search_x
  ∧ filterValues st2 ≠ only_active.
Proof.
  repeat split; try (vm_compute; reflexivity).
  intros Heq. apply (f_equal (λ m, m !! "q")) in Heq.
  vm_compute in Heq. discriminate Heq.
Qed.

(** ** Debounced filter commits *)

Section DebounceFacts.
Variable debounce : Z.
Implicit Types (calls : list (Z * gmap string jsval * gmap string bool)).
Implicit Types (c : Z * gmap string jsval * gmap string bool).

Lemma setPendingFilters_twice p q (st : Controller) :
  setPendingFilters p (setPendingFilters q st) = setPendingFilters p st.
Proof. reflexivity. Qed.

Lemma last_nonempty_default c calls d d' :
  List.last (c :: calls) d = List.last (c :: calls) d'.
Proof.
  revert c. induction calls as [|c' calls IH]; intros c; [done|].
  change (List.last (c' :: calls) d = List.last (c' :: calls) d'). apply IH.
Qed.

(** A timer that is not due leaves the state alone. *)
Lemma fireTimer_early (now : Z) (st : Controller) c :
  pendingFilters st = Some c → now < c.1.1 + debounce →
  fireTimer debounce now st = st.
Proof.
  destruct c as [[t f] d]; simpl. intros Hp Hnow.
  unfold fireTimer. rewrite Hp.
  by rewrite (proj2 (Z.leb_gt _ _) Hnow).
Qed.

Lemma fireTimer_idle (now : Z) (st : Controller) :
  pendingFilters st = None → fireTimer debounce now st = st.
Proof.
  intros Hp. unfold fireTimer. by rewrite Hp.
Qed.

(** While calls keep coming within the window, only the timer moves: it
    holds the time and the arguments of the latest call. *)
Lemma run_debouncedCalls calls c (st : Controller) :
  inOneWindow debounce (c :: calls) →
  pendingFilters st = Some c →
  run debounce (debouncedCalls calls) st
  = setPendingFilters (Some (List.last calls c)) st.
Proof.
  revert c st. induction calls as [|c' calls IH]; intros c st Hwin Hp.
  - simpl. destruct st. simpl in Hp. by subst.
  - destruct Hwin as [Htime Hwin].
    change (run debounce (debouncedCalls (c' :: calls)) st)
      with (run debounce (debouncedCalls calls)
              (step debounce st (c'.1.1, CallSetFilters c'.1.2 c'.2 true))).
    unfold step; simpl fst; simpl snd.
    rewrite (fireTimer_early _ _ c) by (done || lia).
    unfold handle, setFilters, debouncedSetFilters.
    rewrite (IH c'); [| done | by destruct c' as [[??]?]].
    rewrite setPendingFilters_twice.
    do 2 f_equal. destruct calls as [|c'' calls]; [done|].
    exact (last_nonempty_default c'' calls c' c).
Qed.

(** C7.  Debounced calls of [setFilters] that fall within one window, made
    while no timer is pending, commit nothing while they come in and nothing
    before the window after the last call has elapsed; once it has, the
    timer commits once, with the arguments of the last call: the filter
    values are its sanitised values, the displayed filters are its displayed
    filters, the page is 1, each setter was called once, and the timer is
    gone, so that nothing more is committed later. *)
Theorem debounced_calls_commit_once calls (t : Z)
    (filters : gmap string jsval) (shown : gmap string bool)
    (st : Controller) :
  pendingFilters st = None →
  inOneWindow debounce (calls ++ [(t, filters, shown)]) →
  actionsSince st
    (run debounce (debouncedCalls (calls ++ [(t, filters, shown)])) st) = []
  ∧ (∀ now, now < t + debounce →
       fireTimer debounce now
         (run debounce (debouncedCalls (calls ++ [(t, filters, shown)])) st)
       = run debounce (debouncedCalls (calls ++ [(t, filters, shown)])) st)
  ∧ (∀ now, t + debounce ≤ now →
       actionsSince st
         (fireTimer debounce now
            (run debounce (debouncedCalls (calls ++ [(t, filters, shown)])) st))
       = [FilterValuesSet (removeEmpty filters); DisplayedFiltersSet shown;
          PageSet 1]
       ∧ filterValues
           (fireTimer debounce now
              (run debounce
                 (debouncedCalls (calls ++ [(t, filters, shown)])) st))
         = removeEmpty filters
       ∧ displayedFilters
           (fireTimer debounce now
              (run debounce
                 (debouncedCalls (calls ++ [(t, filters, shown)])) st))
         = shown
       ∧ page
           (fireTimer debounce now
              (run debounce
                 (debouncedCalls (calls ++ [(t, filters, shown)])) st))
         = 1
       ∧ ∀ later,
           fireTimer debounce later
             (fireTimer debounce now
                (run debounce
                   (debouncedCalls (calls ++ [(t, filters, shown)])) st))
           = fireTimer debounce now
               (run debounce
                  (debouncedCalls (calls ++ [(t, filters, shown)])) st)).
Proof.
  intros Hidle Hwin.
  assert (Hrun :
    run debounce (debouncedCalls (calls ++ [(t, filters, shown)])) st
    = setPendingFilters (Some (t, filters, shown)) st).
  { destruct (calls ++ [(t, filters, shown)]) as [|c0 rest] eqn:Hcalls.
    { by destruct calls. }
    change (run debounce (debouncedCalls (c0 :: rest)) st)
      with (run debounce (debouncedCalls rest)
              (step debounce st (c0.1.1, CallSetFilters c0.1.2 c0.2 true))).
    unfold step; simpl fst; simpl snd.
    rewrite fireTimer_idle by done.
    unfold handle, setFilters, debouncedSetFilters.
    rewrite (run_debouncedCalls rest c0);
      [| done | by destruct c0 as [[??]?]].
    rewrite setPendingFilters_twice. do 2 f_equal.
    destruct calls as [|c1 calls]; simpl in Hcalls.
    - by injection Hcalls as <- <-.
    - injection Hcalls as <- <-. apply last_last. }
  rewrite Hrun. split; [|split].
  - by apply actionsSince_app; simpl; rewrite app_nil_r.
  - intros now Hnow.
    by apply (fireTimer_early now _ (t, filters, shown)).
  - intros now Hnow.
    assert (Hfire :
      fireTimer debounce now (setPendingFilters (Some (t, filters, shown)) st)
      = debouncedBody filters shown (setPendingFilters None st)).
    { unfold fireTimer; simpl. by rewrite (proj2 (Z.leb_le _ _) Hnow). }
    rewrite Hfire. split; [|repeat split].
    apply actionsSince_app. simpl. by rewrite <-!app_assoc.
Qed.
End DebounceFacts.

(** The spec's example, with three different searches typed 100 ms apart
    and a debounce of 500 ms: only the last search is committed. *)
Lemma debounced_calls_commit_once_witness :
  let st := fireTimer 500 700
              (run 500
                 (debouncedCalls
                    [ (0, {[ "q" := JStr "a" ]}, search_shown);
                      (100, {[ "q" := JStr "ab" ]}, search_shown);
                      (200, search_x, search_shown) ])
                 fresh) in
  actionsSince fresh st
  = [FilterValuesSet (removeEmpty search_x); DisplayedFiltersSet search_shown;
     PageSet 1]
  ∧ filterValues st = removeEmpty search_x
  ∧ page st = 1.
Proof.
  destruct (debounced_calls_commit_once 500
              [ (0, {[ "q" := JStr "a" ]}, search_shown);
                (100, {[ "q" := JStr "ab" ]}, search_shown) ]
              200 search_x search_shown fresh eq_refl)
    as (_ & _ & Hfire).
  { simpl. lia. }
  destruct (Hfire 700) as (Hlog & Hvalues & _ & Hpage & _); [lia|].
  split; [exact Hlog | split; [exact Hvalues | exact Hpage]].
Defined.

(** * Further properties of the hooks *)

(** ** Cursors *)

Lemma ceiling_of_quotient (t p : Z) :
  0 < p → is_ceiling t p (- (- t / p)).
Proof.
  intros Hp. left. split; [done|].
  pose proof (Z.mul_div_le (- t) p Hp).
  pose proof (Z.mul_succ_div_gt (- t) p Hp). nia.
Qed.

Lemma getNextPageParam_by_total (perPage c t : Z) (r : PageResult) :
  pr_pageInfo r = None → pr_total r = Some t → 0 < perPage →
  getNextPageParam perPage (queryFn_result c r)
  = (if bool_decide (c * perPage < t) then Some (c + 1) else None).
Proof.
  intros Hi Ht Hp. unfold getNextPageParam; simpl. rewrite Hi, Ht.
  rewrite total_or_zero_Some.
  pose proof (ceiling_of_quotient t perPage Hp) as Hceil.
  rewrite (math_ceil_div_ceiling _ _ _ Hceil). simpl.
  destruct Hceil as [[_ Hn]|[? _]]; [|lia].
  destruct (Z.ltb_spec c (- (- t / perPage))); case_bool_decide; done || nia.
Qed.

(** Without page information and with a positive page size, the next cursor
    exists exactly when the reported total goes beyond the records of the
    pages up to the current one, in particular never for a total of 0. *)
Theorem next_cursor_when_records_remain (perPage c t : Z) (r : PageResult) :
  pr_pageInfo r = None → pr_total r = Some t → 0 < perPage →
  getNextPageParam perPage (queryFn_result c r)
  = (if bool_decide (c * perPage < t) then Some (c + 1) else None).
Proof. apply getNextPageParam_by_total. Qed.

Lemma next_cursor_when_records_remain_witness :
  getNextPageParam 25
    (queryFn_result 3 (mkPageResult [] (Some 76) None JUndef)) = Some 4
  ∧ getNextPageParam 25
      (queryFn_result 3 (mkPageResult [] (Some 75) None JUndef)) = None.
Proof.
  split.
  - apply (next_cursor_when_records_remain 25 3 76); [done | done | lia].
  - apply (next_cursor_when_records_remain 25 3 75); [done | done | lia].
Defined.

(** Without page information, the page reached by the next cursor of page
    [c] has [c] as its previous cursor, except when [c] is 0: page 1 never
    has a previous cursor. *)
Theorem next_then_previous_cursor (perPage c c' : Z) (r r' : PageResult) :
  pr_pageInfo r = None → pr_pageInfo r' = None →
  getNextPageParam perPage (queryFn_result c r) = Some c' →
  getPreviousPageParam (queryFn_result c' r')
  = (if bool_decide (c = 0) then None else Some c).
Proof.
  intros Hi Hi'. unfold getNextPageParam, getPreviousPageParam; simpl.
  rewrite Hi, Hi'. destruct (js_lt _ _); [|done]. intros [= <-].
  destruct (Z.eqb_spec (c + 1) 1); case_bool_decide; try lia; [done|].
  f_equal. lia.
Qed.

Lemma next_then_previous_cursor_witness :
  getPreviousPageParam
    (queryFn_result 3 (mkPageResult [] (Some 95) None JUndef)) = Some 2
  ∧ getPreviousPageParam
      (queryFn_result 1 (mkPageResult [] (Some 95) None JUndef)) = None.
Proof.
  split.
  - apply (next_then_previous_cursor 25 2 3
             (mkPageResult [] (Some 95) None JUndef)); done.
  - apply (next_then_previous_cursor 25 0 1
             (mkPageResult [] (Some 95) None JUndef)); done.
Defined.


(** ** Walking forward through a list *)

Section Walk.
Variable records : list RaRecord.
Variable perPage : Z.
Hypothesis perPage_positive : 0 < perPage.

Lemma data_loadedUpTo (k : nat) :
  concat (map data (loadedUpTo records perPage k))
  = take (k * Z.to_nat perPage) records.
Proof.
  unfold loadedUpTo. induction k as [|k IH]; [done|].
  rewrite seq_S, !map_app, concat_app, IH. simpl. rewrite app_nil_r.
  replace (Z.to_nat ((Z.of_nat (S k) - 1) * perPage))
    with (k * Z.to_nat perPage)%nat by lia.
  rewrite take_take_drop. f_equal. lia.
Qed.

Lemma last_loadedUpTo (k : nat) :
  last (loadedUpTo records perPage (S k))
  = Some (queryFn_result (Z.of_nat (S k))
            (servePage records perPage (Z.of_nat (S k)))).
Proof.
  unfold loadedUpTo. rewrite seq_S, map_app. simpl. by rewrite last_snoc.
Qed.

(** One forward fetch loads the next page while records remain, and nothing
    once the loaded pages reach the total. *)
Lemma fetchNextPage_loadedUpTo (k : nat) :
  fetchNextPage perPage (servePage records perPage)
    (loadedUpTo records perPage (S k))
  = if bool_decide (Z.of_nat (S k) * perPage < Z.of_nat (length records))
    then loadedUpTo records perPage (S (S k))
    else loadedUpTo records perPage (S k).
Proof.
  unfold fetchNextPage. rewrite last_loadedUpTo.
  rewrite (getNextPageParam_by_total perPage _
             (Z.of_nat (length records))) by done.
  case_bool_decide; [|done].
  unfold loadedUpTo. rewrite (seq_S (S k)), map_app. simpl.
  by replace (Z.of_nat (S k) + 1) with (Z.of_nat (S (S k))) by lia.
Qed.

Lemma walk_loadedUpTo (n : nat) :
  ∃ k, Nat.iter n (fetchNextPage perPage (servePage records perPage))
         (loadedUpTo records perPage 1)
       = loadedUpTo records perPage (S k)
       ∧ (k = n ∨ Z.of_nat (length records) ≤ Z.of_nat (S k) * perPage).
Proof.
  induction n as [|n (k & Hk & Hfar)]; [by exists 0%nat; auto|].
  simpl. rewrite Hk, fetchNextPage_loadedUpTo.
  case_bool_decide as Hmore.
  - exists (S k). split; [done|]. left. lia.
  - exists k. split; [done|]. right. lia.
Qed.

(** Starting from page 1 of a provider that serves a list in slices of a
    positive size, forward fetches load the records in order, none skipped
    and none twice; once enough fetches were made for the length of the
    list, the loaded pages hold exactly the list and a further fetch loads
    nothing. *)
Theorem forward_walk_loads_every_record (n : nat) :
  (∃ j, concat (map data
                  (Nat.iter n (fetchNextPage perPage (servePage records perPage))
                     (loadedUpTo records perPage 1)))
        = take j records)
  ∧ (Z.of_nat (length records) ≤ Z.of_nat (S n) * perPage →
     concat (map data
               (Nat.iter n (fetchNextPage perPage (servePage records perPage))
                  (loadedUpTo records perPage 1)))
     = records
     ∧ fetchNextPage perPage (servePage records perPage)
         (Nat.iter n (fetchNextPage perPage (servePage records perPage))
            (loadedUpTo records perPage 1))
       = Nat.iter n (fetchNextPage perPage (servePage records perPage))
           (loadedUpTo records perPage 1)).
Proof.
  destruct (walk_loadedUpTo n) as (k & -> & Hfar). split.
  - eexists. apply data_loadedUpTo.
  - intros Henough.
    assert (Hall : Z.of_nat (length records) ≤ Z.of_nat (S k) * perPage)
      by (destruct Hfar as [->|]; lia).
    split.
    + rewrite data_loadedUpTo. apply take_ge. nia.
    + rewrite fetchNextPage_loadedUpTo.
      by rewrite bool_decide_eq_false_2 by lia.
Qed.
End Walk.

Lemma forward_walk_loads_every_record_witness :
  concat (map data
            (Nat.iter 2
               (fetchNextPage 2
                  (servePage [comment 1 "a"; comment 2 "b"; comment 3 "c";
                              comment 4 "d"; comment 5 "e"] 2))
               (loadedUpTo [comment 1 "a"; comment 2 "b"; comment 3 "c";
                            comment 4 "d"; comment 5 "e"] 2 1)))
  = [comment 1 "a"; comment 2 "b"; comment 3 "c"; comment 4 "d";
     comment 5 "e"].
Proof.
  apply (forward_walk_loads_every_record
           [comment 1 "a"; comment 2 "b"; comment 3 "c"; comment 4 "d";
            comment 5 "e"] 2 ltac:(lia) 2).
  simpl. lia.
Defined.

(** ** More on record promotion *)

Section PromotionMore.
Context {Meta : Type} `{Countable Meta}.
Implicit Types (cache : gmap (string * string * Meta) RaRecord).
Implicit Types (pages : list LoadedPage).

Lemma firstWriter_Some resource (meta : Meta) pages k record :
  firstWriter resource meta pages k = Some record →
  k = getOneKey resource record meta
  ∧ ∃ page, page ∈ pages ∧ record ∈ data page.
Proof.
  unfold firstWriter. intros Hhead.
  assert (Hin : record ∈ base.filter
            (λ r, getOneKey resource r meta = k) (concat (map data pages))).
  { destruct (base.filter _ _) as [|x l]; [done|].
    injection Hhead as ->. apply list_elem_of_here. }
  apply list_elem_of_filter in Hin as [Hkey Hin]. split; [done|].
  apply list_elem_of_In, in_concat in Hin as (l & Hl & Hin).
  apply in_map_iff in Hl as (page & <- & Hpage).
  exists page. split; by apply list_elem_of_In.
Qed.

(** What the effect leaves in the cache depends on the state of the query
    alone: the cache as it was, or the cache with the pages written into
    it. *)
Lemma promotionEffect_cases resource (meta : Meta) result :
  (∀ cache, (promotionEffect resource meta result cache).1 = cache)
  ∨ ∃ pages, res_data result = Some pages
      ∧ Z.of_nat (length (concat (map data pages))) ≤ 100
      ∧ ∀ cache, (promotionEffect resource meta result cache).1
                 = populateGetOneCache resource meta pages cache.
Proof.
  unfold promotionEffect. destruct (res_data result) as [pages|]; [|by left].
  destruct (_ || _); [by left|]. simpl.
  rewrite allPagesDataLength_count. unfold MAX_DATA_LENGTH_TO_CACHE.
  destruct (Z.leb_spec (Z.of_nat (length (concat (map data pages)))) 100);
    [right; by exists pages | by left].
Qed.

(** In every state of the query, the effect only adds to the record-by-id
    cache: each entry it finds is still there unchanged, and each entry it
    creates holds a record of the loaded pages, filed under the given
    resource and metadata and the string form of that record's own id. *)
Theorem promotion_only_adds_fetched_records
    (resource : string) (meta : Meta) (result : QueryResult) cache :
  cache ⊆ (promotionEffect resource meta result cache).1
  ∧ ∀ k record,
      cache !! k = None →
      (promotionEffect resource meta result cache).1 !! k = Some record →
      k = (resource, String_of_Identifier (rec_id record), meta)
      ∧ ∃ pages page, res_data result = Some pages
          ∧ page ∈ pages ∧ record ∈ data page.
Proof.
  destruct (promotionEffect_cases resource meta result)
    as [Hskip|(pages & Hdata & _ & Hwrite)].
  - rewrite Hskip. split; [done|]. intros k record Hk. by rewrite Hk.
  - rewrite Hwrite. split.
    + apply map_subseteq_spec. intros k old Hk.
      by rewrite lookup_populateGetOneCache, Hk.
    + intros k record Hk. rewrite lookup_populateGetOneCache, Hk.
      intros (-> & page & Hpage & Hrecord)%firstWriter_Some.
      split; [done|]. by exists pages, page.
Qed.

(** Running the effect again on the same query state changes nothing more:
    a second settlement with the same pages finds every key taken. *)
Theorem promotion_is_idempotent
    (resource : string) (meta : Meta) (result : QueryResult) cache :
  (promotionEffect resource meta result
     (promotionEffect resource meta result cache).1).1
  = (promotionEffect resource meta result cache).1.
Proof.
  destruct (promotionEffect_cases resource meta result)
    as [Hskip|(pages & _ & _ & Hwrite)].
  - by rewrite !Hskip.
  - rewrite !Hwrite. apply map_eq. intros k.
    rewrite !lookup_populateGetOneCache.
    by destruct (cache !! k), (firstWriter resource meta pages k).
Qed.

Lemma size_write_all resource (meta : Meta) (records : list RaRecord) cache :
  (size (foldl (λ cache record,
                  setQueryData (getOneKey resource record meta)
                    (keepOld record) cache)
               cache records)
   ≤ size cache + length records)%nat.
Proof.
  revert cache. induction records as [|record records IH]; intros cache;
    simpl; [lia|].
  etransitivity; [apply IH|].
  unfold setQueryData, keepOld.
  destruct (cache !! getOneKey resource record meta) as [old|] eqn:Hk; simpl.
  - rewrite insert_id by done. lia.
  - rewrite map_size_insert_None by done. lia.
Qed.

(** One run of the effect grows the cache by at most the number of loaded
    records, and never by more than 100 entries. *)
Theorem promotion_adds_at_most_the_ceiling
    (resource : string) (meta : Meta) (result : QueryResult) cache :
  (size (promotionEffect resource meta result cache).1
   ≤ size cache + 100)%nat
  ∧ ∀ pages, res_data result = Some pages →
      (size (promotionEffect resource meta result cache).1
       ≤ size cache + length (concat (map data pages)))%nat.
Proof.
  destruct (promotionEffect_cases resource meta result)
    as [Hskip|(pages & Hdata & Hle & Hwrite)].
  - rewrite Hskip. split; [lia|]. intros; lia.
  - rewrite Hwrite, populateGetOneCache_flat.
    pose proof (size_write_all resource meta (concat (map data pages)) cache).
    split; [lia|]. intros pages' Hdata'.
    rewrite Hdata in Hdata'. by injection Hdata' as <-.
Qed.
End PromotionMore.

Lemma promotion_only_adds_fetched_records_witness :
  (promotionEffect "comments" None (settled two_comments) warm_cache).1
    !! ("comments", "2", None) = Some (comment 2 "second")
  ∧ ("comments", "2", None : option string)
    = ("comments", String_of_Identifier (rec_id (comment 2 "second")), None).
Proof.
  assert (Hnew :
    (promotionEffect "comments" None (settled two_comments) warm_cache).1
      !! ("comments", "2", None) = Some (comment 2 "second")) by reflexivity.
  split; [exact Hnew|].
  exact (proj1 (proj2 (promotion_only_adds_fetched_records "comments" None
                         (settled two_comments) warm_cache)
                  ("comments", "2", None) (comment 2 "second")
                  eq_refl Hnew)).
Defined.

Lemma promotion_adds_at_most_the_ceiling_witness :
  (size (promotionEffect "comments" None (settled two_comments) warm_cache).1
   ≤ size warm_cache + 2)%nat.
Proof.
  exact (proj2 (promotion_adds_at_most_the_ceiling "comments" None
                  (settled two_comments) warm_cache)
           two_comments eq_refl).
Defined.

(** ** The callbacks of the hook *)

(** The three callbacks are dispatched by the state of the query: none while
    a fetch is under way; on a state with an error, [onError] then
    [onSettled], and never [onSuccess], even if pages are still cached; on a
    state with data and no error, [onSuccess] with all the pages, however
    many records they hold, then [onSettled]; on an idle query that never ran,
    none. *)
Theorem callbacks_follow_the_query_state `{Countable Meta}
    (resource : string) (meta : Meta) (result : QueryResult)
    (cache : gmap (string * string * Meta) RaRecord) :
  (res_isFetching result = true →
     (hookEffects resource meta result cache).2 = [])
  ∧ (∀ error, res_isFetching result = false →
       res_error result = Some error → res_isPending result = false →
       (hookEffects resource meta result cache).2
       = [OnError error; OnSettled (res_data result) (Some error)])
  ∧ (∀ pages, res_isFetching result = false →
       res_error result = None → res_data result = Some pages →
       res_isPending result = false →
       (hookEffects resource meta result cache).2
       = [OnSuccess pages; OnSettled (Some pages) None])
  ∧ (res_isFetching result = false → res_error result = None →
     res_data result = None → res_isPending result = true →
     (hookEffects resource meta result cache).2 = []).
Proof.
  unfold hookEffects, promotionEffect, onErrorEffect, onSettledEffect; simpl.
  split; [|split; [|split]].
  - intros ->. rewrite !orb_true_r.
    by destruct (res_data result), (res_error result).
  - intros error -> -> ->. by destruct (res_data result).
  - intros pages -> -> -> ->. simpl.
    by destruct (allPagesDataLength pages <=? MAX_DATA_LENGTH_TO_CACHE).
  - by intros -> -> -> ->.
Qed.

Lemma callbacks_follow_the_query_state_witness :
  (hookEffects "comments" (None : option string)
     (failed (ErrString "boom") false) ∅).2
  = [OnError (ErrString "boom"); OnSettled None (Some (ErrString "boom"))].
Proof.
  exact (proj1 (proj2 (callbacks_follow_the_query_state "comments" None
                         (failed (ErrString "boom") false) ∅))
           (ErrString "boom") eq_refl eq_refl eq_refl).
Defined.

(** ** The total and the metadata the hook returns *)

(** The total and the metadata come from the first loaded page alone: pages
    appended by forward fetches never change them, a page prepended by a
    backward fetch replaces them with its own, and without data there is no
    total. *)
Theorem total_comes_from_first_page (result result' : QueryResult)
    (first : LoadedPage) (pages more : list LoadedPage) :
  res_data result = Some (first :: pages) →
  (hv_total (useInfiniteGetMany_return result) = total first
   ∧ hv_meta (useInfiniteGetMany_return result) = meta first)
  ∧ (res_data result' = Some ((first :: pages) ++ more) →
     hv_total (useInfiniteGetMany_return result')
       = hv_total (useInfiniteGetMany_return result)
     ∧ hv_meta (useInfiniteGetMany_return result')
       = hv_meta (useInfiniteGetMany_return result))
  ∧ (∀ earlier, res_data result' = Some (earlier :: first :: pages) →
     hv_total (useInfiniteGetMany_return result') = total earlier)
  ∧ (res_data result' = None →
     hv_total (useInfiniteGetMany_return result') = None).
Proof.
  intros Hdata. unfold useInfiniteGetMany_return. rewrite Hdata.
  split; [done|]. split; [|split].
  - by intros ->.
  - by intros earlier ->.
  - by intros ->.
Qed.

Lemma total_comes_from_first_page_witness :
  hv_total (useInfiniteGetMany_return
              (settled (two_comments
                        ++ [mkLoadedPage [] (Some 7) 2 None JNull])))
  = Some 2.
Proof.
  destruct (total_comes_from_first_page (settled two_comments)
              (settled (two_comments
                        ++ [mkLoadedPage [] (Some 7) 2 None JNull]))
              (mkLoadedPage [comment 1 "fresh"; comment 2 "second"]
                 (Some 2) 1 None JUndef)
              [] [mkLoadedPage [] (Some 7) 2 None JNull] eq_refl)
    as ((Hfirst & _) & Hmore & _).
  destruct (Hmore eq_refl) as [Htotal _].
  rewrite Htotal. exact Hfirst.
Defined.

(** ** The request of the controller *)



(** The page of the controller is part of the query key and is the cursor
    the first fetch asks for: setting another page gives another key, that
    is another query, which starts at that page. *)
Theorem page_is_part_of_the_query_key (reference target source : string)
    (record : option (gmap string jsval)) (queryOptions : QueryOptions)
    (st : Controller) (p : Z) :
  (queryKey (useInfiniteGetMany_args reference target record source
               queryOptions (setPage p st))
   = queryKey (useInfiniteGetMany_args reference target record source
                 queryOptions st)
   ↔ p = page st)
  ∧ fr_page (queryFn (useInfiniteGetMany_args reference target record source
                        queryOptions (setPage p st)) None) = p
  ∧ ∀ c, fr_page (queryFn (useInfiniteGetMany_args reference target record
                             source queryOptions (setPage p st)) (Some c))
         = c.
Proof.
  split; [|done]. unfold queryKey; simpl. split.
  - by intros [= ->].
  - by intros ->.
Qed.

(** ** The error branch of the controller *)

(** An error that is truthy wins over everything else: the result carries
    that error, no data and no total, and is neither pending nor loading,
    also when pages are still cached or the query is pending; the sort, the
    page and the filters stay those of the controller. *)
Theorem error_hides_cached_data (reference : string) (st : Controller)
    (result : QueryResult) :
  error_truthy (res_error result) = true →
  r_error (controllerResult reference st (useInfiniteGetMany_return result))
    = res_error result
  ∧ r_data (controllerResult reference st (useInfiniteGetMany_return result))
    = None
  ∧ r_total (controllerResult reference st (useInfiniteGetMany_return result))
    = None
  ∧ r_isPending
      (controllerResult reference st (useInfiniteGetMany_return result))
    = false
  ∧ r_isLoading
      (controllerResult reference st (useInfiniteGetMany_return result))
    = false
  ∧ r_page (controllerResult reference st (useInfiniteGetMany_return result))
    = page st
  ∧ r_filterValues
      (controllerResult reference st (useInfiniteGetMany_return result))
    = filterValues st.
Proof.
  intros Herr. unfold controllerResult, useInfiniteGetMany_return.
  destruct (res_data result); simpl; by rewrite Herr.
Qed.

Lemma error_hides_cached_data_witness :
  r_data (controllerResult "comments" fresh
            (useInfiniteGetMany_return
               (mkQueryResult (Some two_comments) (Some (ErrString "boom"))
                  StatusError false false false false false)))
  = None.
Proof.
  exact (proj1 (proj2 (error_hides_cached_data "comments" fresh
                         (mkQueryResult (Some two_comments)
                            (Some (ErrString "boom")) StatusError false false
                            false false false)
                         eq_refl))).
Defined.

(** A fetch rejected with the empty string is not taken for an error by the
    controller: the string is falsy, so once the query is no longer pending
    the result is the success one, with no error, an empty list when there
    are no pages, and the total -1. *)
Theorem empty_string_error_reads_as_success (reference : string)
    (st : Controller) (result : QueryResult) :
  res_error result = Some (ErrString "") →
  res_status result = StatusError →
  res_data result = None →
  r_error (controllerResult reference st (useInfiniteGetMany_return result))
    = None
  ∧ r_data (controllerResult reference st (useInfiniteGetMany_return result))
    = Some []
  ∧ r_total (controllerResult reference st (useInfiniteGetMany_return result))
    = Some (-1)
  ∧ r_isPending
      (controllerResult reference st (useInfiniteGetMany_return result))
    = false.
Proof.
  intros Herr Hstatus Hdata.
  unfold controllerResult, useInfiniteGetMany_return, unwrappedData,
    res_isPending.
  rewrite Hdata; simpl. by rewrite Herr, Hstatus, Hdata.
Qed.

Lemma empty_string_error_reads_as_success_witness :
  r_data (controllerResult "comments" fresh
            (useInfiniteGetMany_return (failed (ErrString "") false)))
  = Some [].
Proof.
  exact (proj1 (proj2 (empty_string_error_reads_as_success "comments" fresh
                         (failed (ErrString "") false)
                         eq_refl eq_refl eq_refl))).
Defined.



(** ** Showing and hiding a filter *)

(** [showFilter] marks the filter as displayed and stores the default value
    as it is given, also an empty one; [hideFilter] after it removes the
    name from both maps, so a filter that was not there before leaves no
    trace.  Neither touches the page, the sort or a pending debounced
    call. *)
Theorem showFilter_then_hideFilter (filterName : string)
    (defaultValue : jsval) (st : Controller) :
  (filterValues (showFilter filterName defaultValue st) !! filterName
     = Some defaultValue
   ∧ displayedFilters (showFilter filterName defaultValue st) !! filterName
     = Some true)
  ∧ (filterValues (hideFilter filterName (showFilter filterName defaultValue st))
     = delete filterName (filterValues st)
     ∧ displayedFilters
         (hideFilter filterName (showFilter filterName defaultValue st))
       = delete filterName (displayedFilters st))
  ∧ (filterValues st !! filterName = None →
     displayedFilters st !! filterName = None →
     filterValues (hideFilter filterName (showFilter filterName defaultValue st))
       = filterValues st
     ∧ displayedFilters
         (hideFilter filterName (showFilter filterName defaultValue st))
       = displayedFilters st)
  ∧ page (hideFilter filterName (showFilter filterName defaultValue st))
    = page st
  ∧ sort (hideFilter filterName (showFilter filterName defaultValue st))
    = sort st
  ∧ pendingFilters
      (hideFilter filterName (showFilter filterName defaultValue st))
    = pendingFilters st.
Proof.
  simpl. split; [split; apply lookup_insert_eq|].
  rewrite !delete_insert_eq. split; [done|]. split; [|done].
  intros Hv Hd. by rewrite !delete_id.
Qed.

Lemma showFilter_then_hideFilter_witness :
  filterValues (hideFilter "author" (showFilter "author" (JStr "") fresh))
  = filterValues fresh.
Proof.
  exact (proj1 (proj1 (proj2 (proj2
           (showFilter_then_hideFilter "author" (JStr "") fresh)))
           eq_refl eq_refl)).
Defined.


(** ** The debounce timer and the other operations *)

Section TimerFacts.
Variable debounce : Z.

Lemma handle_keeps_timer (now : Z) (c : Call) (st : Controller) :
  startsTimer c = false →
  pendingFilters (handle now c st) = pendingFilters st.
Proof.
  destruct c as [f d []| | | | | |f]; simpl; try done.
  intros _. unfold filterEffect. by destruct (negb _).
Qed.

Lemma fireTimer_keeps_filterRef (now : Z) (st : Controller) :
  filterRef (fireTimer debounce now st) = filterRef st.
Proof.
  unfold fireTimer. destruct (pendingFilters st) as [[[t f] d]|]; [|done].
  by destruct (_ <=? _).
Qed.

Lemma handle_keeps_filterRef (now : Z) (c : Call) (st : Controller) :
  isRender c = false → filterRef (handle now c st) = filterRef st.
Proof.
  destruct c as [f d []| | | | | |f]; simpl; done.
Qed.

(** A render with the contents of the default last seen runs no setter. *)
Lemma filterEffect_same_default (st : Controller) :
  filterEffect (filterRef st) st = st.
Proof.
  unfold filterEffect. by rewrite (proj2 (isEqual_spec _ _) eq_refl).
Qed.

(** A debounced call that is pending is not cancelled by anything the
    controller does: after any calls other than a debounced [setFilters],
    made before the window has elapsed, it is still pending, and when the
    timer fires its sanitised values, its displayed filters and page 1
    replace whatever those calls had set. *)
Theorem pending_commit_survives_other_calls (events : list (Z * Call))
    (st : Controller) (lastCallTime : Z) (filters : gmap string jsval)
    (shown : gmap string bool) :
  pendingFilters st = Some (lastCallTime, filters, shown) →
  Forall (λ event, startsTimer event.2 = false
                   ∧ event.1 < lastCallTime + debounce) events →
  pendingFilters (run debounce events st)
    = Some (lastCallTime, filters, shown)
  ∧ ∀ now, lastCallTime + debounce ≤ now →
      filterValues (fireTimer debounce now (run debounce events st))
        = removeEmpty filters
      ∧ displayedFilters (fireTimer debounce now (run debounce events st))
        = shown
      ∧ page (fireTimer debounce now (run debounce events st)) = 1.
Proof.
  intros Hpending Hevents.
  assert (Hrun : pendingFilters (run debounce events st)
                 = Some (lastCallTime, filters, shown)).
  { revert st Hpending.
    induction Hevents as [|[now c] events [Hc Hnow] _ IH]; intros st Hpending;
      [done|].
    apply IH. unfold step; simpl in *.
    rewrite handle_keeps_timer by done.
    by rewrite (fireTimer_early debounce now st (lastCallTime, filters, shown)). }
  split; [done|]. intros now Hnow.
  unfold fireTimer. rewrite Hrun.
  by rewrite (proj2 (Z.leb_le _ _) Hnow).
Qed.

(** As long as the default filter keeps the contents last seen, renders
    never reset the filter values, whatever the user does in between: the
    default last seen stays the same, and a render does nothing beyond
    letting a due timer run. *)
Theorem unchanged_default_never_resets (events : list (Z * Call))
    (st : Controller) :
  Forall (λ event, ∀ filter, event.2 = Render filter → filter = filterRef st)
    events →
  filterRef (run debounce events st) = filterRef st
  ∧ ∀ now,
      step debounce (run debounce events st) (now, Render (filterRef st))
      = fireTimer debounce now (run debounce events st).
Proof.
  intros Hevents.
  assert (Hgen : ∀ default evs,
            Forall (λ event, ∀ filter,
                      event.2 = Render filter → filter = default) evs →
            ∀ st', filterRef st' = default →
                   filterRef (run debounce evs st') = default).
  { intros default evs Hall.
    induction Hall as [|[now c] rest Hc _ IH]; intros st' Hdefault; [done|].
    apply IH. unfold step; simpl in *.
    pose proof (fireTimer_keeps_filterRef now st') as Hfire.
    destruct (isRender c) eqn:Hrender.
    - destruct c; try discriminate. rewrite (Hc _ eq_refl); simpl.
      rewrite <-Hdefault, <-Hfire. by rewrite filterEffect_same_default.
    - rewrite handle_keeps_filterRef by done. congruence. }
  pose proof (Hgen (filterRef st) events Hevents st eq_refl) as Href.
  split; [done|]. intros now. unfold step; simpl.
  rewrite <-Href, <-(fireTimer_keeps_filterRef now).
  apply filterEffect_same_default.
Qed.
End TimerFacts.

(** A search typed with the debounce, then a click on page 3 and a new
    sort inside the window: when the timer fires the search is committed
    and the page is back to 1. *)
Lemma pending_commit_survives_other_calls_witness :
  let st := fireTimer 500 500
              (run 500 [ (100, CallSetPage 3);
                         (200, CallSetSort (mkSort "title" "ASC")) ]
                 (setFilters 0 search_x search_shown true fresh)) in
  filterValues st = removeEmpty search_x ∧ page st = 1.
Proof.
  destruct (pending_commit_survives_other_calls 500
              [ (100, CallSetPage 3);
                (200, CallSetSort (mkSort "title" "ASC")) ]
              (setFilters 0 search_x search_shown true fresh)
              0 search_x search_shown eq_refl) as [_ Hfire].
  { repeat constructor; simpl; lia. }
  destruct (Hfire 500) as (Hvalues & _ & Hpage); [lia|].
  split; [exact Hvalues | exact Hpage].
Defined.

Lemma unchanged_default_never_resets_witness :
  filterValues
    (step 500
       (run 500 [ (0, CallSetFilters search_x search_shown false);
                  (10, Render ∅) ] fresh)
       (20, Render ∅))
  = search_x.
Proof.
  destruct (unchanged_default_never_resets 500
              [ (0, CallSetFilters search_x search_shown false);
                (10, Render ∅) ] fresh) as [_ Hrender].
  { repeat constructor; simpl; intros filter; [discriminate|].
    by intros [= <-]. }
  change (Render ∅) with (Render (filterRef fresh)) at 2.
  rewrite Hrender. vm_compute. reflexivity.
Defined.

(** ** The key of the selection store *)

Lemma string_length_app (s1 s2 : string) :
  String.length (s1 +:+ s2) = (String.length s1 + String.length s2)%nat.
Proof.
  induction s1 as [|a s1 IH]; simpl; [done|]. by rewrite IH.
Qed.

Lemma string_app_inj_r (suffix s1 s2 : string) :
  s1 +:+ suffix = s2 +:+ suffix → s1 = s2.
Proof.
  revert s2. induction s1 as [|a s1 IH]; intros [|b s2] Heq; [done| | |].
  - apply (f_equal String.length) in Heq.
    rewrite !string_length_app in Heq. simpl in Heq. lia.
  - apply (f_equal String.length) in Heq.
    rewrite !string_length_app in Heq. simpl in Heq. lia.
  - simpl in Heq. injection Heq as -> Heq. f_equal. by apply IH.
Qed.

(** The selection of the field is stored under the [storeKey] prop when
    there is one.  Otherwise fields of the same resource and reference share
    their selection exactly when their owners' ids read the same as
    strings: owners with different ids are kept apart, while the number 1
    and the string "1" are not. *)
Theorem storeKey_separates_owners (resource : option string)
    (reference : string) (record record' : option (gmap string jsval)) :
  (∀ key, storeKey (Some key) resource record reference = key)
  ∧ (storeKey None resource record reference
     = storeKey None resource record' reference
     ↔ String_of_jsval (get record "id") = String_of_jsval (get record' "id"))
  ∧ storeKey None resource (Some {[ "id" := JNum 1 ]}) reference
    = storeKey None resource (Some {[ "id" := JStr "1" ]}) reference.
Proof.
  split; [done|]. split; [|done]. unfold storeKey; simpl. split.
  - intros Heq. apply (inj (String.app _)) in Heq.
    apply (inj (String.app ".")) in Heq.
    by apply string_app_inj_r in Heq.
  - by intros ->.
Qed.

(** ** The field component *)

(** A field given only its reference, target and owner record asks for the
    first 25 records that point to the owner, newest id first: page 1, 25 per
    page, sorted by id descending, filtered on the target alone, without
    metadata; the query is enabled exactly when the owner has an id; the
    debounce is 500 unless the prop sets it. *)
Theorem default_field_request (props : FieldProps) :
  fp_filter props = None → fp_page props = None → fp_perPage props = None →
  fp_sort props = None → fp_source props = None →
  fp_queryOptions props = None →
  queryFn (controllerArgs (InfiniteReferenceManyField props)
             (controllerMount (InfiniteReferenceManyField props))) None
  = {| fr_resource := fp_reference props;
       fr_target := fp_target props;
       fr_id := if nullish (get (fp_record props) "id") then JStr ""
                else get (fp_record props) "id";
       fr_page := 1;
       fr_perPage := 25;
       fr_sort := mkSort "id" "DESC";
       fr_filter := {[ fp_target props := get (fp_record props) "id" ]};
       fr_meta := JUndef |}
  ∧ ha_enabled (controllerArgs (InfiniteReferenceManyField props)
                  (controllerMount (InfiniteReferenceManyField props)))
    = negb (nullish (get (fp_record props) "id"))
  ∧ controllerDebounce (InfiniteReferenceManyField props)
    = default 500 (fp_debounce props).
Proof.
  intros Hfilter Hpage HperPage Hsort Hsource Hoptions.
  unfold queryFn, queryFn_request, controllerArgs, controllerMount,
    controllerDebounce, InfiniteReferenceManyField, useInfiniteGetMany_args,
    enabledOption, queryIsEnabled; simpl.
  rewrite Hfilter, Hpage, HperPage, Hsort, Hsource, Hoptions; simpl.
  unfold defaultFilter, defaultSort. rewrite insert_empty.
  split; [done|]. split; [|done].
  by destruct (nullish (get (fp_record props) "id")).
Qed.

Lemma default_field_request_witness :
  fr_filter
    (queryFn
       (controllerArgs
          (InfiniteReferenceManyField
             (mkFieldProps None None None None (Some {[ "id" := JNum 7 ]})
                "comments" (Some "posts") None None None "post_id" None))
          (controllerMount
             (InfiniteReferenceManyField
                (mkFieldProps None None None None (Some {[ "id" := JNum 7 ]})
                   "comments" (Some "posts") None None None "post_id" None))))
       None)
  = {[ "post_id" := JNum 7 ]}.
Proof.
  rewrite (proj1 (default_field_request
                    (mkFieldProps None None None None
                       (Some {[ "id" := JNum 7 ]}) "comments" (Some "posts")
                       None None None "post_id" None)
                    eq_refl eq_refl eq_refl eq_refl eq_refl eq_refl)).
  reflexivity.
Defined.

(** ** Walking backward *)

Section WalkBack.
Variable fetch : Z → PageResult.
Hypothesis no_pageInfo : ∀ c, pr_pageInfo (fetch c) = None.

Lemma fetchPreviousPage_cons (c : Z) (pages : list LoadedPage) :
  fetchPreviousPage fetch (queryFn_result c (fetch c) :: pages)
  = if bool_decide (c = 1) then queryFn_result c (fetch c) :: pages
    else queryFn_result (c - 1) (fetch (c - 1))
         :: queryFn_result c (fetch c) :: pages.
Proof.
  unfold fetchPreviousPage, getPreviousPageParam; simpl.
  rewrite no_pageInfo.
  destruct (Z.eqb_spec c 1); case_bool_decide; done || lia.
Qed.

Lemma list_map_cons {A B} (f : A → B) (x : A) (l : list A) :
  map f (x :: l) = f x :: map f l.
Proof. reflexivity. Qed.

Lemma fetchPreviousPage_range (c : Z) (m : nat) :
  fetchPreviousPage fetch
    (map (λ i : nat, queryFn_result (c - Z.of_nat m + Z.of_nat i)
                       (fetch (c - Z.of_nat m + Z.of_nat i)))
         (seq 0 (S m)))
  = if bool_decide (c - Z.of_nat m = 1)
    then map (λ i : nat, queryFn_result (c - Z.of_nat m + Z.of_nat i)
                           (fetch (c - Z.of_nat m + Z.of_nat i)))
             (seq 0 (S m))
    else map (λ i : nat, queryFn_result (c - Z.of_nat (S m) + Z.of_nat i)
                           (fetch (c - Z.of_nat (S m) + Z.of_nat i)))
             (seq 0 (S (S m))).
Proof.
  change (seq 0 (S (S m))) with (0%nat :: seq 1 (S m)).
  rewrite (list_map_cons _ 0%nat (seq 1 (S m))).
  rewrite <-(seq_shift (S m)), map_map.
  change (seq 0 (S m)) with (0%nat :: seq 1 m).
  rewrite !(list_map_cons _ 0%nat (seq 1 m)).
  replace (c - Z.of_nat m + Z.of_nat 0) with (c - Z.of_nat m) by lia.
  rewrite fetchPreviousPage_cons.
  case_bool_decide; [done|].
  replace (c - Z.of_nat (S m) + Z.of_nat 0) with (c - Z.of_nat m - 1) by lia.
  replace (c - Z.of_nat (S m) + Z.of_nat 1) with (c - Z.of_nat m) by lia.
  do 2 f_equal. apply map_ext. intros i.
  by replace (c - Z.of_nat (S m) + Z.of_nat (S i))
    with (c - Z.of_nat m + Z.of_nat i) by lia.
Qed.

(** After [n] backward fetches from page [c] the loaded pages are the
    consecutive pages from some page [c - m] up to [c], in that order; the
    walk went on at every step unless it had reached page 1. *)
Lemma backward_walk_shape (c : Z) (n : nat) :
  ∃ m : nat,
    Nat.iter n (fetchPreviousPage fetch) [queryFn_result c (fetch c)]
    = map (λ i : nat, queryFn_result (c - Z.of_nat m + Z.of_nat i)
                        (fetch (c - Z.of_nat m + Z.of_nat i)))
          (seq 0 (S m))
    ∧ (m = n ∨ c - Z.of_nat m = 1)
    ∧ (1 ≤ c → 1 ≤ c - Z.of_nat m).
Proof.
  induction n as [|n (m & Hpages & Hstop & Hlow)].
  - exists 0%nat. simpl. rewrite Z.sub_0_r, Z.add_0_r. auto with lia.
  - pose proof (fetchPreviousPage_range c m) as Hstep.
    case_bool_decide as Hone.
    + exists m. simpl Nat.iter. rewrite Hpages, Hstep.
      split; [done|]. split; [right; lia | done].
    + exists (S m). simpl Nat.iter. rewrite Hpages, Hstep.
      split; [done|]. split; [left; lia | lia].
Qed.

(** Without page information, backward fetches from a page [c ≥ 1] load the
    pages before it in descending order and put each in front, so that the
    loaded pages end up as pages 1 to [c] in ascending order; at page 1 the
    walk stops, and further backward fetches load nothing. *)
Theorem backward_walk_stops_at_page_one (c : Z) (n : nat) :
  1 ≤ c → (Z.to_nat (c - 1) ≤ n)%nat →
  Nat.iter n (fetchPreviousPage fetch) [queryFn_result c (fetch c)]
  = map (λ i : nat, queryFn_result (Z.of_nat i) (fetch (Z.of_nat i)))
        (seq 1 (Z.to_nat c)).
Proof.
  intros Hc Hn.
  destruct (backward_walk_shape c n) as (m & -> & Hstop & Hlow).
  assert (m = Z.to_nat (c - 1)) as -> by (specialize (Hlow Hc); lia).
  replace (Z.to_nat c) with (S (Z.to_nat (c - 1))) by lia.
  rewrite <-(seq_shift (S _)), map_map.
  apply map_ext. intros i. do 2 f_equal; lia.
Qed.

(** From a page below 1 the backward walk never ends: page 1 is the only
    one without a previous cursor and is never reached, so every backward
    fetch loads one more page, with a cursor one lower. *)
Theorem backward_walk_below_one_never_stops (c : Z) (n : nat) :
  c ≤ 0 →
  map pageParam
    (Nat.iter n (fetchPreviousPage fetch) [queryFn_result c (fetch c)])
  = map (λ i : nat, c - Z.of_nat n + Z.of_nat i) (seq 0 (S n)).
Proof.
  intros Hc.
  destruct (backward_walk_shape c n) as (m & -> & Hstop & _).
  assert (m = n) as -> by lia.
  by rewrite map_map.
Qed.
End WalkBack.

Lemma backward_walk_stops_at_page_one_witness :
  map pageParam
    (Nat.iter 5 (fetchPreviousPage (servePage [] 25))
       [queryFn_result 3 (servePage [] 25 3)])
  = [1; 2; 3].
Proof.
  rewrite (backward_walk_stops_at_page_one (servePage [] 25)
             (λ _, eq_refl) 3 5); [reflexivity | lia | lia].
Defined.

Lemma backward_walk_below_one_never_stops_witness :
  map pageParam
    (Nat.iter 2 (fetchPreviousPage (servePage [] 25))
       [queryFn_result 0 (servePage [] 25 0)])
  = [-2; -1; 0].
Proof.
  rewrite (backward_walk_below_one_never_stops (servePage [] 25)
             (λ _, eq_refl) 0 2); [reflexivity | lia].
Defined.

(** ** The branches of the result *)

(** The result is in exactly one of three shapes, chosen by the error and
    the pending flag alone: it carries an error exactly when the query's
    error is truthy, it is pending exactly when there is no such error and
    the query is pending, and it has data exactly in the remaining case.
    Loading is reported whenever the result is pending, whether or not a
    fetch is under way, so also for a disabled query. *)
Theorem result_is_error_pending_or_data (reference : string)
    (st : Controller) (hv : HookValue) :
  (is_Some (r_error (controllerResult reference st hv))
   ↔ error_truthy (res_error (hv_result hv)) = true)
  ∧ (r_isPending (controllerResult reference st hv) = true
     ↔ error_truthy (res_error (hv_result hv)) = false
       ∧ res_isPending (hv_result hv) = true)
  ∧ (is_Some (r_data (controllerResult reference st hv))
     ↔ error_truthy (res_error (hv_result hv)) = false
       ∧ res_isPending (hv_result hv) = false)
  ∧ r_isLoading (controllerResult reference st hv)
    = r_isPending (controllerResult reference st hv).
Proof.
  unfold controllerResult.
  destruct (error_truthy (res_error (hv_result hv))) eqn:Herr.
  - simpl. repeat split; try done; try (by intros [? ?]); try (by intros [? ?]).
    intros _. destruct (res_error (hv_result hv)); [by eexists | done].
  - destruct (res_isPending (hv_result hv)); simpl;
      repeat split; try done; try (by intros [? ?]); by eexists.
Qed.

Lemma result_is_error_pending_or_data_witness :
  r_isLoading
    (controllerResult "comments" fresh
       (useInfiniteGetMany_return
          (useInfiniteQuery_first
             (useInfiniteGetMany_args "comments" "post_id" unsaved_post "id"
                (mkQueryOptions JUndef None) fresh)).1))
  = true.
Proof.
  destruct (result_is_error_pending_or_data "comments" fresh
              (useInfiniteGetMany_return
                 (useInfiniteQuery_first
                    (useInfiniteGetMany_args "comments" "post_id" unsaved_post
                       "id" (mkQueryOptions JUndef None) fresh)).1))
    as (_ & Hpending & _ & Hloading).
  rewrite Hloading. apply Hpending. split; reflexivity.
Defined.

(** The pagination context of the field shows the query's own paging flags
    in every shape of the result, also while the result carries an error or
    is pending. *)
Theorem pagination_flags_pass_through (reference : string) (st : Controller)
    (hv : HookValue) :
  paginationContext (controllerResult reference st hv)
  = {| pc_hasNextPage := res_hasNextPage (hv_result hv);
       pc_isFetchingNextPage := res_isFetchingNextPage (hv_result hv);
       pc_hasPreviousPage := res_hasPreviousPage (hv_result hv);
       pc_isFetchingPreviousPage :=
         res_isFetchingPreviousPage (hv_result hv) |}.
Proof.
  unfold controllerResult.
  by destruct (error_truthy (res_error (hv_result hv))),
              (res_isPending (hv_result hv)).
Qed.
